(** * Supermarket chatbot: the question -> SQL -> answer pipeline of [app.py]

    A shallow embedding of [src/source_code/app.py]: the schema
    introspector [get_db_schema], the per-turn pipeline
    [generate_db_answer] and the Streamlit script body that maintains the
    chat transcript, then the whole script with the creation of the LLM
    client, what it draws and its side panel.

    The three external services are inputs of the model:
    - the LLM client ([client.models.generate_content]) is an oracle that,
      for the n-th call of an invocation and its prompt, either answers
      with a text or raises;
    - the database driver ([psycopg2]) either refuses the connection, or
      fails a statement with a [psycopg2.Error], or runs it, exposing
      [cursor.description] ([None] for a statement without result set)
      and the rows of [cursor.fetchall()];
    - the chat widget hands the script one optional prompt per run.

    Python's control flow (exceptions, [return] inside [try], [finally])
    is kept as it is written, through a small completion monad that also
    records every call made to the external services. *)

From Stdlib Require Import String Ascii List ZArith Lia Bool Arith DecimalString
  Permutation.
Import ListNotations.
Open Scope string_scope.

(* ================================================================== *)
(** * Python built-ins used by the program *)
(* ================================================================== *)

(** A Python [str] is modelled as a Rocq [string] whose characters are the
    code points 0..255; the character classes below ([isspace],
    [isprintable]) are Python's on that range. *)
Module Py.

Definition chr (n : nat) : string := String (ascii_of_nat n) EmptyString.

(** Characters that cannot be written inside a literal of this file. *)
Definition dquote : string := chr 34.
Definition squote : string := chr 39.
Definition backslash : string := chr 92.
Definition nl : string := chr 10.

(** [s.startswith(p)] *)
Fixpoint startswith (p s : string) : bool :=
  match p, s with
  | EmptyString, _ => true
  | String _ _, EmptyString => false
  | String a p', String b s' => Ascii.eqb a b && startswith p' s'
  end.

(** [sub in s] *)
Fixpoint contains (sub s : string) : bool :=
  startswith sub s ||
  match s with
  | EmptyString => false
  | String _ s' => contains sub s'
  end.

(** [c.isspace()] for a code point below 256:
    TAB LF VT FF CR, FS GS RS US, SPACE, NEL (0x85), NBSP (0xa0). *)
Definition isspace (c : ascii) : bool :=
  let n := nat_of_ascii c in
  (((9 <=? n) && (n <=? 13)) || ((28 <=? n) && (n <=? 32))
   || (n =? 133) || (n =? 160))%nat.

Fixpoint lstrip (s : string) : string :=
  match s with
  | EmptyString => EmptyString
  | String c s' => if isspace c then lstrip s' else s
  end.

Fixpoint rstrip (s : string) : string :=
  match s with
  | EmptyString => EmptyString
  | String c s' =>
      match rstrip s' with
      | EmptyString => if isspace c then EmptyString else String c EmptyString
      | r => String c r
      end
  end.

(** [s.strip()] *)
Definition strip (s : string) : string := rstrip (lstrip s).

(** Scanning loop of [s.replace(old, new)] for a non-empty [old]: the
    leftmost occurrence is replaced and the scan resumes after it; [skip]
    counts the characters of a matched occurrence still to be dropped. *)
Fixpoint replace_from (old new : string) (skip : nat) (s : string) : string :=
  match s with
  | EmptyString => EmptyString
  | String c s' =>
      match skip with
      | S k => replace_from old new k s'
      | O =>
          if startswith old s
          then new ++ replace_from old new (String.length old - 1) s'
          else String c (replace_from old new 0 s')
      end
  end.

(** [s.replace("", new)] puts [new] before every character and at the end. *)
Fixpoint interleave (new s : string) : string :=
  match s with
  | EmptyString => new
  | String c s' => new ++ String c (interleave new s')
  end.

(** [s.replace(old, new)] *)
Definition replace (old new s : string) : string :=
  match old with
  | EmptyString => interleave new s
  | String _ _ => replace_from old new 0 s
  end.

(** [sep.join(l)] *)
Fixpoint join (sep : string) (l : list string) : string :=
  match l with
  | [] => EmptyString
  | [x] => x
  | x :: rest => x ++ sep ++ join sep rest
  end.

(** Values found in result rows.  Objects of any other class ([Decimal],
    [datetime.date], [float], ...) are carried by the text [repr] gives
    them. *)
Inductive value : Type :=
  | VNone
  | VBool (b : bool)
  | VInt (n : Z)
  | VStr (s : string)
  | VObject (repr_text : string).

Definition str_of_int (n : Z) : string := NilZero.string_of_int (Z.to_int n).

Definition hex_digit (n : nat) : string :=
  chr (if (n <? 10)%nat then 48 + n else 87 + n).

(** [c.isprintable()] for a code point below 256. *)
Definition isprintable (c : ascii) : bool :=
  let n := nat_of_ascii c in
  ((32 <=? n) && negb ((127 <=? n) && (n <=? 160)) && negb (n =? 173))%nat.

(** One character of [repr(s)], [quote] being the chosen delimiter. *)
Definition repr_char (quote c : ascii) : string :=
  let n := nat_of_ascii c in
  if Ascii.eqb c quote || (n =? 92)%nat then backslash ++ String c EmptyString
  else if (n =? 9)%nat then backslash ++ "t"
  else if (n =? 10)%nat then backslash ++ "n"
  else if (n =? 13)%nat then backslash ++ "r"
  else if isprintable c then String c EmptyString
  else backslash ++ "x" ++ hex_digit (n / 16) ++ hex_digit (n mod 16).

Fixpoint repr_chars (quote : ascii) (s : string) : string :=
  match s with
  | EmptyString => EmptyString
  | String c s' => repr_char quote c ++ repr_chars quote s'
  end.

(** [repr(s)] of a [str]: single quotes, unless [s] has a single quote and
    no double quote. *)
Definition repr_str (s : string) : string :=
  let quote :=
    if contains squote s && negb (contains dquote s)
    then ascii_of_nat 34 else ascii_of_nat 39 in
  String quote (repr_chars quote s) ++ String quote EmptyString.

Definition repr (v : value) : string :=
  match v with
  | VNone => "None"
  | VBool true => "True"
  | VBool false => "False"
  | VInt n => str_of_int n
  | VStr s => repr_str s
  | VObject r => r
  end.

(** A [dict] keeps its keys in insertion order: an association list with
    distinct keys. *)
Definition dict (V : Type) : Type := list (string * V).

Fixpoint dict_mem {V} (k : string) (d : dict V) : bool :=
  match d with
  | [] => false
  | (k', _) :: d' => String.eqb k k' || dict_mem k d'
  end.

(** [d[k] = v]: an existing key keeps its place, a new one goes last. *)
Fixpoint dict_set {V} (k : string) (v : V) (d : dict V) : dict V :=
  match d with
  | [] => [(k, v)]
  | (k', v') :: d' =>
      if String.eqb k k' then (k', v) :: d' else (k', v') :: dict_set k v d'
  end.

(** [dict(pairs)] *)
Definition dict_of_pairs {V} (pairs : list (string * V)) : dict V :=
  fold_left (fun d kv => dict_set (fst kv) (snd kv) d) pairs [].

(** [str(d)] of a dict with [str] keys. *)
Definition str_of_dict (d : dict value) : string :=
  "{" ++ join ", " (map (fun kv => repr_str (fst kv) ++ ": " ++ repr (snd kv)) d)
      ++ "}".

(** [str(l)] of a list of such dicts. *)
Definition str_of_list (l : list (dict value)) : string :=
  "[" ++ join ", " (map str_of_dict l) ++ "]".

End Py.

(* ================================================================== *)
(** * External services *)
(* ================================================================== *)

(** Classes of the exceptions that occur; all derive from [Exception]. *)
Inductive exn_class : Type :=
  | Psycopg2Error        (* psycopg2.Error and its subclasses *)
  | TypeError
  | ClientError          (* whatever the LLM client raises *)
  | AttributeError
  | ValueError.

Record exn : Type := { class : exn_class; message : string }.

(** Outcome of [client.models.generate_content]: a response whose [text]
    is a [str], a response whose [text] is [None] (the attribute is an
    [Optional[str]]), or an exception whose [str()] is [message]. *)
Inductive llm_response : Type :=
  | LlmText (text : string)
  | LlmNoText
  | LlmFailure (message : string).

(** Outcome of [psycopg2.connect]. *)
Inductive connect_result : Type :=
  | Connected
  | ConnectError (message : string).

(** Outcome of [cursor.execute(sql)]: a [psycopg2.Error], or a cursor in
    the state the statement leaves it in.  [description] is [None] after a
    statement that returns no rows (INSERT, UPDATE, DDL, ...), otherwise
    the column names ([desc[0]] of each column); [rows] is what
    [fetchall()] yields.  [FetchRaises] is a statement with a result set
    whose [fetchall()] raises [e] while it converts the rows: a
    [psycopg2.Error], or an exception of another class such as the
    [ValueError] of a date out of Python's range. *)
Inductive execute_result : Type :=
  | ExecuteError (message : string)
  | Executed (description : option (list string)) (rows : list (list Py.value))
  | FetchRaises (description : list string) (e : exn).

(** Outcome of the catalog query of [get_db_schema]: an exception raised
    by [execute] or [fetchall], whose [str()] is [message], or the rows;
    the three selected columns are text, so a row is a triple of [str]. *)
Inductive catalog_result : Type :=
  | CatalogError (message : string)
  | CatalogRows (rows : list (string * string * string)).

(** What the outside world does during one invocation. *)
Record world : Type := {
  generate_content : nat -> string -> llm_response;
  connect : connect_result;
  execute : string -> execute_result;
  catalog : catalog_result
}.

(** Calls made to the services, in the order they are made. *)
Inductive event : Type :=
  | LlmCall (model contents : string)
  | DbConnect (opened : bool)
  | DbExecute (sql : string)
  | DbClose.

Definition is_llm_call (e : event) : bool :=
  match e with LlmCall _ _ => true | _ => false end.

Definition is_db_event (e : event) : bool :=
  match e with LlmCall _ _ => false | _ => true end.

(* ================================================================== *)
(** * Exceptions, completions and the statement monad *)
(* ================================================================== *)

Definition isinstance_Exception (e : exn) : bool := true.

Definition isinstance_psycopg2_Error (e : exn) : bool :=
  match class e with Psycopg2Error => true | _ => false end.

Inductive connection : Type := Connection.

(** A cursor after [execute]; [cur_fetch_error] is the exception
    [fetchall()] raises, if it does. *)
Record cursor : Type := {
  cur_description : option (list string);
  cur_rows : list (list Py.value);
  cur_fetch_error : option exn
}.

(** The local variables that are assigned more than once, and the trace. *)
Record state : Type := {
  conn : option connection;
  query_result : string;
  trace : list event
}.

Definition initial_state : state :=
  {| conn := None; query_result := EmptyString; trace := [] |}.

(** How a block of statements ends. *)
Inductive completion (A : Type) : Type :=
  | Normal (a : A)
  | Returned (v : option string)     (* [return v], [v] a [str] or [None] *)
  | Raised (e : exn).
Arguments Normal {A} a.
Arguments Returned {A} v.
Arguments Raised {A} e.

Definition M (A : Type) : Type := state -> completion A * state.

Definition ret {A} (a : A) : M A := fun st => (Normal a, st).

Definition bind {A B} (c : M A) (k : A -> M B) : M B :=
  fun st =>
    match c st with
    | (Normal a, st') => k a st'
    | (Returned v, st') => (Returned v, st')
    | (Raised e, st') => (Raised e, st')
    end.

Declare Scope py_scope.
Delimit Scope py_scope with py.
Notation "x <- c ;; k" := (bind c (fun x => k))
  (at level 61, c at next level, right associativity) : py_scope.
Notation "c ;; k" := (bind c (fun _ => k))
  (at level 61, right associativity) : py_scope.

(** [return v] for a [str] [v] *)
Definition return_ {A} (v : string) : M A := fun st => (Returned (Some v), st).

(** [return v] for a [v] that is a [str] or [None] *)
Definition return_optional {A} (v : option string) : M A :=
  fun st => (Returned v, st).

(** [raise e] *)
Definition raise {A} (e : exn) : M A := fun st => (Raised e, st).

(** [try: body  except <classes> as e: handler e] *)
Definition try_except {A} (body : M A) (catches : exn -> bool)
    (handler : exn -> M A) : M A :=
  fun st =>
    match body st with
    | (Raised e, st') => if catches e then handler e st' else (Raised e, st')
    | other => other
    end.

(** [try: body  finally: fin].  The [finally] block runs however [body]
    ends; the completion of [body] stands unless [fin] itself returns or
    raises. *)
Definition try_finally {A} (body : M A) (fin : M unit) : M A :=
  fun st =>
    let (c, st') := body st in
    match fin st' with
    | (Normal _, st'') => (c, st'')
    | (Returned v, st'') => (Returned v, st'')
    | (Raised e, st'') => (Raised e, st'')
    end.

Definition log (e : event) : M unit :=
  fun st => (Normal tt,
             {| conn := conn st; query_result := query_result st;
                trace := (trace st ++ [e])%list |}).

Definition set_conn (c : option connection) : M unit :=
  fun st => (Normal tt,
             {| conn := c; query_result := query_result st;
                trace := trace st |}).

Definition get_conn : M (option connection) := fun st => (Normal (conn st), st).

Definition set_query_result (s : string) : M unit :=
  fun st => (Normal tt,
             {| conn := conn st; query_result := s; trace := trace st |}).

Definition get_query_result : M string :=
  fun st => (Normal (query_result st), st).

(** What a call of a function gives its caller: a [str], [None], or an
    exception. *)
Inductive outcome : Type :=
  | Value (v : string)
  | NoneValue
  | Throws (e : exn).

(** Calling a function whose every path ends in [return] or an exception:
    the body runs in a fresh frame. *)
Definition call (body : M Empty_set) : outcome * list event :=
  match body initial_state with
  | (Normal a, _) => match a with end
  | (Returned (Some v), st) => (Value v, trace st)
  | (Returned None, st) => (NoneValue, trace st)
  | (Raised e, st) => (Throws e, trace st)
  end.

Section Services.

Variable w : world.

Local Open Scope py_scope.

(** [psycopg2.connect(DATABASE_URL)] *)
Definition psycopg2_connect : M connection :=
  match connect w with
  | Connected => log (DbConnect true) ;; ret Connection
  | ConnectError m =>
      log (DbConnect false) ;; raise {| class := Psycopg2Error; message := m |}
  end.

(** [conn.close()] *)
Definition conn_close (c : connection) : M unit := log DbClose.

(** [cur = conn.cursor(); cur.execute(sql)] *)
Definition cursor_execute (c : connection) (sql : string) : M cursor :=
  log (DbExecute sql) ;;
  match execute w sql with
  | ExecuteError m => raise {| class := Psycopg2Error; message := m |}
  | Executed d rows =>
      ret {| cur_description := d; cur_rows := rows;
             cur_fetch_error := None |}
  | FetchRaises names e =>
      ret {| cur_description := Some names; cur_rows := [];
             cur_fetch_error := Some e |}
  end.

(** [cur.execute(sql); cur.fetchall()] for the catalog query. *)
Definition cursor_execute_catalog (c : connection) (sql : string)
    : M (list (string * string * string)) :=
  log (DbExecute sql) ;;
  match catalog w with
  | CatalogError m => raise {| class := Psycopg2Error; message := m |}
  | CatalogRows rows => ret rows
  end.

(** [[desc[0] for desc in cur.description]]: iterating [None] raises. *)
Definition description_names (cur : cursor) : M (list string) :=
  match cur_description cur with
  | None =>
      raise {| class := TypeError;
               message := "'NoneType' object is not iterable" |}
  | Some names => ret names
  end.

(** [cur.fetchall()] *)
Definition fetchall (cur : cursor) : M (list (list Py.value)) :=
  match cur_description cur with
  | None =>
      raise {| class := Psycopg2Error; message := "no results to fetch" |}
  | Some _ =>
      match cur_fetch_error cur with
      | Some e => raise e
      | None => ret (cur_rows cur)
      end
  end.

(** [client.models.generate_content(model=..., contents=...).text]; the
    oracle is asked with the number of earlier calls of the invocation. *)
Definition models_generate_content (model contents : string)
    : M (option string) :=
  fun st =>
    let n := List.length (filter is_llm_call (trace st)) in
    match log (LlmCall model contents) st with
    | (_, st') =>
        match generate_content w n contents with
        | LlmText text => (Normal (Some text), st')
        | LlmNoText => (Normal None, st')
        | LlmFailure m => (Raised {| class := ClientError; message := m |}, st')
        end
    end.

End Services.

(* ================================================================== *)
(** * [app.py] *)
(* ================================================================== *)

Import Py.

Definition MODEL : string := "gemini-2.5-flash".

(** The catalog query of [get_db_schema] (lines 39-47). *)
Definition CATALOG_QUERY : string :=
  nl ++ "            SELECT " ++ nl
     ++ "                table_name, " ++ nl
     ++ "                column_name, " ++ nl
     ++ "                data_type " ++ nl
     ++ "            FROM information_schema.columns " ++ nl
     ++ "            WHERE table_schema = 'public'" ++ nl
     ++ "            ORDER BY table_name, ordinal_position;" ++ nl
     ++ "        ".

(** [schema[table].append(entry)] *)
Fixpoint schema_append (table entry : string) (schema : dict (list string))
    : dict (list string) :=
  match schema with
  | [] => []
  | (t, columns) :: rest =>
      if String.eqb table t then (t, (columns ++ [entry])%list) :: rest
      else (t, columns) :: schema_append table entry rest
  end.

(** Body of the loop over the catalog rows (lines 50-53). *)
Definition schema_add_row (schema : dict (list string))
    (row : string * string * string) : dict (list string) :=
  let '(table, column, data_type) := row in
  let schema :=
    if negb (dict_mem table schema) then dict_set table [] schema else schema in
  schema_append table (column ++ " (" ++ data_type ++ ")") schema.

Definition build_schema (rows : list (string * string * string))
    : dict (list string) :=
  fold_left schema_add_row rows [].

(** One block of the schema text (line 56). *)
Definition render_table (entry : string * list string) : string :=
  let '(t, c) := entry in
  "Table: " ++ t ++ nl ++ "Columns: " ++ join ", " c.

(** Lines 55-57. *)
Definition render_schema (schema : dict (list string)) : string :=
  join (nl ++ nl) (map render_table schema).

(** The marker tested by [generate_db_answer] (line 75). *)
Definition SCHEMA_MARKER : string := "Schema unavailable".

(** Lines 80-88. *)
Definition sql_generation_prompt (db_schema user_question : string) : string :=
  nl ++ "        You are an expert SQL generator for a PostgreSQL database." ++ nl
     ++ "        " ++ nl
     ++ "        The database schema is:" ++ nl ++ db_schema ++ nl ++ nl
     ++ "        " ++ nl
     ++ "        Based on the user's question, generate *only* the single best SQL query. " ++ nl
     ++ "        Do not add any explanation, text, or markdown, just the SQL." ++ nl
     ++ "        Question: " ++ dquote ++ user_question ++ dquote ++ nl
     ++ "        ".

(** Line 95: the cleaning of the LLM's text. *)
Definition clean_sql (text : string) : string :=
  strip (replace "```" EmptyString (replace "```sql" EmptyString (strip text))).

(** Lines 123-132. *)
Definition final_answer_prompt (user_question sql_query query_result : string)
    : string :=
  nl ++ "    The user asked: " ++ dquote ++ user_question ++ dquote ++ nl
     ++ "    " ++ nl
     ++ "    The SQL query executed was: " ++ dquote ++ sql_query ++ dquote ++ nl
     ++ "    " ++ nl
     ++ "    The database result is:" ++ nl ++ query_result ++ nl ++ nl
     ++ "    " ++ nl
     ++ "    Analyze the result and provide a clear, concise, natural language answer to the user's original question." ++ nl
     ++ "    If the result is a Database Error or shows 'No data found.', inform the user politely." ++ nl
     ++ "    ".

Section App.

Variable w : world.

Local Open Scope py_scope.

(** [finally: if conn: conn.close()] (lines 63-65 and 118-120). *)
Definition close_if_open : M unit :=
  c <- get_conn ;;
  match c with
  | Some c' => conn_close c'
  | None => ret tt
  end.

(** Lines 33-65. *)
Definition get_db_schema_body : M Empty_set :=
  set_conn None ;;
  try_finally
    (try_except
       (c <- psycopg2_connect w ;;
        set_conn (Some c) ;;
        rows <- cursor_execute_catalog w c CATALOG_QUERY ;;
        let schema := build_schema rows in
        let schema_text := render_schema schema in
        return_ schema_text)
       isinstance_Exception
       (fun error =>
          return_ ("Schema unavailable due to database error: "
                   ++ message error)))
    close_if_open.

Definition get_db_schema : outcome * list event := call get_db_schema_body.

(** Lines 75-76. *)
Definition schema_guard (db_schema : string) : M unit :=
  if contains SCHEMA_MARKER db_schema
  then return_ ("Sorry, I can't connect to the database to retrieve the schema. Error: "
                ++ db_schema)
  else ret tt.

(** Line 95 on the [text] attribute: on [None] the first [.strip]
    raises. *)
Definition cleaned_text (text : option string) : M string :=
  match text with
  | Some t => ret (clean_sql t)
  | None =>
      raise {| class := AttributeError;
               message := "'NoneType' object has no attribute 'strip'" |}
  end.

(** Step 1, lines 78-98: the SQL generator. *)
Definition generate_sql (user_question db_schema : string) : M string :=
  try_except
    (response_sql_text <-
       models_generate_content w MODEL
         (sql_generation_prompt db_schema user_question) ;;
     cleaned_text response_sql_text)
    isinstance_Exception
    (fun e => return_ ("Error generating SQL: " ++ message e)).

(** Step 2, lines 100-120: the query executor; its result is left in the
    variable [query_result]. *)
Definition execute_query (sql_query : string) : M unit :=
  set_conn None ;;
  set_query_result "No data found." ;;
  try_finally
    (try_except
       (c <- psycopg2_connect w ;;
        set_conn (Some c) ;;
        cur <- cursor_execute w c sql_query ;;
        column_names <- description_names cur ;;
        data <- fetchall cur ;;
        let result_rows :=
          map (fun row => dict_of_pairs (combine column_names row)) data in
        set_query_result (str_of_list result_rows))
       isinstance_psycopg2_Error
       (fun e => set_query_result ("Database Error: " ++ message e)))
    close_if_open.

(** Step 3, lines 122-142: the answer synthesizer. *)
Definition synthesize (user_question sql_query query_result : string)
    : M Empty_set :=
  try_except
    (response_answer_text <-
       models_generate_content w MODEL
         (final_answer_prompt user_question sql_query query_result) ;;
     return_optional response_answer_text)
    isinstance_Exception
    (fun e => return_ ("Error generating final answer: " ++ message e)).

(** Lines 69-142. *)
Definition generate_db_answer_body (user_question db_schema : string)
    : M Empty_set :=
  schema_guard db_schema ;;
  sql_query <- generate_sql user_question db_schema ;;
  execute_query sql_query ;;
  query_result <- get_query_result ;;
  synthesize user_question sql_query query_result.

Definition generate_db_answer (user_question db_schema : string)
    : outcome * list event :=
  call (generate_db_answer_body user_question db_schema).

End App.

(* ================================================================== *)
(** * The script body: transcript and schema cache *)
(* ================================================================== *)

(** A stored message; its content is the question, or what
    [generate_db_answer] returned: a [str] or [None]. *)
Record ChatMessage : Type := { role : string; content : option string }.

(** What a run of the script finds and leaves: the value under the key
    ["messages"] of [st.session_state] (absent before the first run of a
    browser session) and the memo of [get_db_schema] kept by
    [st.cache_data].  The memo belongs to the server process: a browser
    session that starts in a process where an earlier one ran finds it
    filled. *)
Record session : Type := {
  messages : option (list ChatMessage);
  schema_cache : option string
}.

Definition new_session : session :=
  {| messages := None; schema_cache := None |}.

(** Line 160. *)
Definition GREETING : ChatMessage :=
  {| role := "assistant";
     content := Some "Hello, Sir/ Ma'am ! I can answer your questions by querying the database. What would you like to know?" |}.

(** How a run of the script ends. *)
Inductive run_end : Type :=
  | Completed
  | Aborted (e : exn).

(** Truth value of a [str]. *)
Definition truthy (s : string) : bool :=
  match s with EmptyString => false | String _ _ => true end.

(** The memoised call of line 156. *)
Definition cached_get_db_schema (w : world) (s : session) : outcome :=
  match schema_cache s with
  | Some text => Value text
  | None => fst (get_db_schema w)
  end.

(** One run of the script (lines 155-184) with the value [chat_input]
    returned by the input widget. *)
Definition script_run (w : world) (chat_input : option string) (s : session)
    : session * run_end :=
  match cached_get_db_schema w s with
  | Throws e => (s, Aborted e)
  | NoneValue =>
      (* [get_db_schema] returns a [str] on every path; on [None] the test
         of line 75 or of line 187 would raise *)
      let history :=
        match messages s with
        | None => [GREETING]
        | Some l => l
        end in
      let history :=
        match chat_input with
        | None => history
        | Some prompt =>
            if truthy prompt
            then (history ++ [{| role := "user"; content := Some prompt |}])%list
            else history
        end in
      ({| messages := Some history; schema_cache := schema_cache s |},
       Aborted {| class := TypeError;
                  message := "argument of type 'NoneType' is not iterable" |})
  | Value DB_SCHEMA =>
      let history :=
        match messages s with
        | None => [GREETING]
        | Some l => l
        end in
      let keep l := {| messages := Some l; schema_cache := Some DB_SCHEMA |} in
      match chat_input with
      | None => (keep history, Completed)
      | Some prompt =>
          if truthy prompt then
            let history :=
              (history ++ [{| role := "user"; content := Some prompt |}])%list in
            match fst (generate_db_answer w prompt DB_SCHEMA) with
            | Value answer =>
                (keep (history
                       ++ [{| role := "assistant";
                              content := Some answer |}])%list,
                 Completed)
            | NoneValue =>
                (keep (history
                       ++ [{| role := "assistant"; content := None |}])%list,
                 Completed)
            | Throws e => (keep history, Aborted e)
            end
          else (keep history, Completed)
      end
  end.

(** A user turn: the submitted question and what the world does while it
    is handled. *)
Definition turn : Type := (string * world)%type.

Definition run_turn (s : session) (t : turn) : session :=
  fst (script_run (snd t) (Some (fst t)) s).

Definition run_turns (s : session) (turns : list turn) : session :=
  fold_left run_turn turns s.

(** The transcript shown to the user. *)
Definition transcript (s : session) : list ChatMessage :=
  match messages s with
  | None => []
  | Some l => l
  end.

(* ================================================================== *)
(** * Vocabulary of the properties *)
(* ================================================================== *)

(** The two markers removed by [clean_sql]. *)
Definition FENCE : string := "```".
Definition SQL_FENCE : string := "```sql".

(** A string of whitespace only. *)
Fixpoint all_space (s : string) : bool :=
  match s with
  | EmptyString => true
  | String c s' => isspace c && all_space s'
  end.

(** Prompts sent to the LLM, in call order. *)
Definition llm_prompts (tr : list event) : list string :=
  flat_map (fun e => match e with LlmCall _ c => [c] | _ => [] end) tr.

(** Database calls of a trace. *)
Definition db_events (tr : list event) : list event := filter is_db_event tr.

(** Number of connections a trace opens. *)
Definition opened (tr : list event) : nat :=
  List.length
    (filter (fun e => match e with DbConnect true => true | _ => false end) tr).

(** Connections still open after a trace that starts with [n] open ones;
    [None] if the trace closes a connection that is not open. *)
Fixpoint live_after (n : nat) (tr : list event) : option nat :=
  match tr with
  | [] => Some n
  | DbConnect true :: tr' => live_after (S n) tr'
  | DbClose :: tr' =>
      match n with
      | O => None
      | S k => live_after k tr'
      end
  | _ :: tr' => live_after n tr'
  end.

(** Every connection the trace opens is closed by its end. *)
Definition all_released (tr : list event) : Prop := live_after 0 tr = Some 0.

(** What the synthesizer returns for the LLM's response (lines 134-142). *)
Definition synthesis_reply (r : llm_response) : outcome :=
  match r with
  | LlmText text => Value text
  | LlmNoText => NoneValue
  | LlmFailure m => Value ("Error generating final answer: " ++ m)
  end.

(** Row dictionaries built by the executor (line 113). *)
Definition result_rows (column_names : list string) (data : list (list value))
    : list (dict value) :=
  map (fun row => dict_of_pairs (combine column_names row)) data.

(** ** The schema text, read off the catalog rows

    These definitions follow the words of the specification, not the code. *)

Definition table_of (row : string * string * string) : string := fst (fst row).

Definition column_entry (row : string * string * string) : string :=
  snd (fst row) ++ " (" ++ snd row ++ ")".

(** Names in order of first occurrence. *)
Fixpoint distinct (l : list string) : list string :=
  match l with
  | [] => []
  | x :: l' => x :: filter (fun y => negb (String.eqb x y)) (distinct l')
  end.

(** The entries of the rows of table [t], in the order of the rows. *)
Definition columns_of (t : string) (rows : list (string * string * string))
    : list string :=
  map column_entry (filter (fun r => String.eqb t (table_of r)) rows).

(** The schema as the specification words it, to be compared with the
    dictionary [build_schema] computes: one block per table, the tables in
    the order in which the catalog result first names them, each with its
    columns in row order. *)
Definition schema_blocks (rows : list (string * string * string))
    : list (string * list string) :=
  map (fun t => (t, columns_of t rows)) (distinct (map table_of rows)).

(** The rows of each table are adjacent, as in a result ordered by table
    name: a row's table is the next row's, or does not occur again. *)
Fixpoint grouped (rows : list (string * string * string)) : bool :=
  match rows with
  | [] => true
  | r :: rest =>
      match rest with
      | [] => true
      | r' :: _ =>
          (String.eqb (table_of r) (table_of r')
           || negb (existsb (String.eqb (table_of r)) (map table_of rest)))
          && grouped rest
      end
  end.

(** ** Sessions *)

(** The messages a run of the script starts from (lines 158-161). *)
Definition history (s : session) : list ChatMessage :=
  match messages s with
  | None => [GREETING]
  | Some l => l
  end.

(** A session as the first page load leaves it, before any question. *)
Definition open_session (w : world) : session :=
  fst (script_run w None new_session).

(** A turn whose question is not empty and whose pipeline call returns. *)
Definition answered (t : turn) : Prop :=
  truthy (fst t) = true /\
  forall db_schema, exists answer,
    fst (generate_db_answer (snd t) (fst t) db_schema) = Value answer.

Definition user_message (prompt : string) : ChatMessage :=
  {| role := "user"; content := Some prompt |}.

Definition assistant_message (answer : string) : ChatMessage :=
  {| role := "assistant"; content := Some answer |}.

(** The two messages of an answered turn, [db_schema] being the cached
    schema text. *)
Definition exchange (db_schema : string) (t : turn) : list ChatMessage :=
  match fst (generate_db_answer (snd t) (fst t) db_schema) with
  | Value answer => [user_message (fst t); assistant_message answer]
  | NoneValue =>
      [user_message (fst t); {| role := "assistant"; content := None |}]
  | Throws _ => [user_message (fst t)]
  end.

(** ** Stub services *)

(** An LLM that answers its first call with [sql_response] and any later
    call with [answer_response], in front of a database that behaves as
    [c] and [x] say. *)
Definition stub_world (sql_response answer_response : llm_response)
    (c : connect_result) (x : execute_result) : world :=
  {| generate_content := fun n _ =>
       match n with O => sql_response | S _ => answer_response end;
     connect := c;
     execute := fun _ => x;
     catalog := CatalogRows [("orders", "id", "integer");
                             ("orders", "total", "numeric");
                             ("products", "name", "text")] |}.

(** The schema text of the stub catalog. *)
Definition SAMPLE_SCHEMA : string :=
  "Table: orders" ++ nl ++ "Columns: id (integer), total (numeric)" ++ nl ++ nl
  ++ "Table: products" ++ nl ++ "Columns: name (text)".

(** The counting scenario. *)
Definition COUNT_QUESTION : string := "How many rows are in table orders?".
Definition COUNT_SQL : string := "SELECT COUNT(*) FROM orders;".

Definition count_world : world :=
  stub_world (LlmText COUNT_SQL) (LlmText "There are 42 orders.")
    Connected (Executed (Some ["count"]) [[VInt 42]]).

(** A statement without result set that the database runs without error. *)
Definition INSERT_SQL : string := "INSERT INTO products (name) VALUES ('milk');".

Definition insert_world : world :=
  stub_world (LlmText INSERT_SQL) (LlmText "Done.")
    Connected (Executed None []).

(** A failing statement, and an LLM whose answer is the empty text. *)
Definition MISSING_SQL : string := "SELECT * FROM missing;".
Definition MISSING_QUESTION : string := "What is in the missing table?".
Definition MISSING_ERROR : string := "relation missing does not exist".

Definition silent_world : world :=
  stub_world (LlmText MISSING_SQL) (LlmText EmptyString)
    Connected (ExecuteError MISSING_ERROR).

(** A failing statement and a failing synthesis call. *)
Definition failing_world : world :=
  stub_world (LlmText MISSING_SQL) (LlmFailure "503 UNAVAILABLE")
    Connected (ExecuteError MISSING_ERROR).

(** A query that finds no row. *)
Definition EMPTY_SQL : string := "SELECT id, total FROM orders WHERE total < 0;".

Definition empty_world : world :=
  stub_world (LlmText EMPTY_SQL) (LlmText "No order has a negative total.")
    Connected (Executed (Some ["id"; "total"]) []).

(** A query whose rows cannot be converted: a date after the year 9999,
    which [fetchall()] refuses with a [ValueError]. *)
Definition FAR_SQL : string := "SELECT expires FROM coupons;".
Definition FAR_QUESTION : string := "When do the coupons expire?".
Definition FAR_ERROR : exn :=
  {| class := ValueError; message := "year 10000 is out of range" |}.

Definition far_date_world : world :=
  stub_world (LlmText FAR_SQL) (LlmText "They never expire.")
    Connected (FetchRaises ["expires"] FAR_ERROR).

(** A synthesis response that has no text. *)
Definition mute_world : world :=
  stub_world (LlmText COUNT_SQL) LlmNoText
    Connected (Executed (Some ["count"]) [[VInt 42]]).

(** An unreachable database and an LLM that cannot be reached either. *)
Definition offline_world : world :=
  stub_world (LlmFailure "connection reset") (LlmFailure "connection reset")
    (ConnectError "could not connect to server") (ExecuteError "closed").

(* ================================================================== *)
(** * The whole script: start-up, rendering and the side panel *)
(* ================================================================== *)

(** Outcome of [genai.Client(api_key=GEMINI_API_KEY)] (line 24): a client,
    a [ValueError], or an exception of another class. *)
Inductive client_init : Type :=
  | ClientCreated
  | ClientValueError
  | ClientRaises (e : exn).

(** What a run puts on the page.  A chat box is the container opened by
    [with st.chat_message(name)], with the arguments of the [st.markdown]
    calls made inside it; the box of the assistant is opened (line 176)
    before [generate_db_answer] is called, so it is on the page, empty,
    when the call raises.  The calls that only draw fixed decoration
    (page configuration, title, caption, spinner, the input box, the side
    panel's title and tip) are left out, and so is the trace-back the
    framework shows for an exception nothing catches. *)
Inductive widget : Type :=
  | StError (body : string)                 (* st.error *)
  | ChatBox (name : string) (bodies : list (option string))
  | SidebarError (body : string)
  | SidebarMarkdown (body : string)
  | SidebarSuccess (body : string)
  | SidebarCode (label body language : string).  (* expander(label).code *)

(** How a run of the whole script ends: at its last line, at [st.stop()],
    or by an exception that nothing catches. *)
Inductive app_end : Type :=
  | Finished
  | Stopped
  | Crashed (e : exn).

Record app_run : Type := {
  after : session;
  ending : app_end;
  rendered : list widget;
  service_calls : list event
}.

(** Line 26. *)
Definition FATAL_MESSAGE : string :=
  "FATAL ERROR: Gemini API Key is missing or invalid. Please check your configuration.".

(** Lines 164-166: the stored messages are drawn again, in order. *)
Definition replay (l : list ChatMessage) : list widget :=
  map (fun m => ChatBox (role m) [content m]) l.

(** Lines 187-192. *)
Definition sidebar (DB_SCHEMA : string) : list widget :=
  if contains SCHEMA_MARKER DB_SCHEMA
  then [SidebarError "Database Schema Retrieval Failed!";
        SidebarMarkdown ("**Error Details:**" ++ nl ++ "```" ++ nl
                         ++ DB_SCHEMA ++ nl ++ "```")]
  else [SidebarSuccess "Database Schema Loaded Successfully!";
        SidebarCode "View Schema" DB_SCHEMA "text"].

(** The memoised call of line 156 with the calls it makes: none when the
    text is in the cache. *)
Definition cached_get_db_schema_calls (w : world) (s : session)
    : outcome * list event :=
  match schema_cache s with
  | Some text => (Value text, [])
  | None => get_db_schema w
  end.

(** One run of the whole script (lines 22-192). *)
Definition app_script (c : client_init) (w : world)
    (chat_input : option string) (s : session) : app_run :=
  match c with
  | ClientValueError =>
      {| after := s; ending := Stopped;
         rendered := [StError FATAL_MESSAGE]; service_calls := [] |}
  | ClientRaises e =>
      {| after := s; ending := Crashed e;
         rendered := []; service_calls := [] |}
  | ClientCreated =>
      match cached_get_db_schema_calls w s with
      | (Throws e, calls) =>
          {| after := s; ending := Crashed e;
             rendered := []; service_calls := calls |}
      | (NoneValue, calls) =>
          (* cannot happen, see [script_run]: the run would end at line 75,
             inside the assistant's box, or at line 187 *)
          {| after := fst (script_run w chat_input s);
             ending :=
               Crashed {| class := TypeError;
                          message :=
                            "argument of type 'NoneType' is not iterable" |};
             rendered :=
               (replay (transcript (fst (script_run w chat_input s)))
                ++ match chat_input with
                   | Some prompt =>
                       if truthy prompt then [ChatBox "assistant" []] else []
                   | None => []
                   end)%list;
             service_calls := calls |}
      | (Value DB_SCHEMA, calls) =>
          let stored :=
            match messages s with
            | None => [GREETING]
            | Some l => l
            end in
          let keep l :=
            {| messages := Some l; schema_cache := Some DB_SCHEMA |} in
          let quiet :=
            {| after := keep stored; ending := Finished;
               rendered := (replay stored ++ sidebar DB_SCHEMA)%list;
               service_calls := calls |} in
          match chat_input with
          | None => quiet
          | Some prompt =>
              if truthy prompt then
                let stored :=
                  (stored
                   ++ [{| role := "user"; content := Some prompt |}])%list in
                let answered answer turn_calls :=
                  {| after :=
                       keep (stored
                             ++ [{| role := "assistant";
                                    content := answer |}])%list;
                     ending := Finished;
                     rendered :=
                       (replay stored ++ [ChatBox "assistant" [answer]]
                        ++ sidebar DB_SCHEMA)%list;
                     service_calls := (calls ++ turn_calls)%list |} in
                match generate_db_answer w prompt DB_SCHEMA with
                | (Value answer, turn_calls) =>
                    answered (Some answer) turn_calls
                | (NoneValue, turn_calls) => answered None turn_calls
                | (Throws e, turn_calls) =>
                    {| after := keep stored; ending := Crashed e;
                       rendered :=
                         (replay stored ++ [ChatBox "assistant" []])%list;
                       service_calls := (calls ++ turn_calls)%list |}
                end
              else quiet
          end
      end
  end.

(** The statements a trace sends to the database. *)
Definition executed (tr : list event) : list string :=
  flat_map (fun e => match e with DbExecute sql => [sql] | _ => [] end) tr.

(** No LLM call is made while a connection is open; [open] tells whether
    one is at the start of the trace. *)
Fixpoint llm_only_while_closed (open : bool) (tr : list event) : bool :=
  match tr with
  | [] => true
  | LlmCall _ _ :: tr' => negb open && llm_only_while_closed open tr'
  | DbConnect true :: tr' => llm_only_while_closed true tr'
  | DbClose :: tr' => llm_only_while_closed false tr'
  | _ :: tr' => llm_only_while_closed open tr'
  end.



(** [d.get(k)]: the value stored under [k], if any. *)
Fixpoint dict_get {V} (k : string) (d : dict V) : option V :=
  match d with
  | [] => None
  | (k', v) :: d' => if String.eqb k k' then Some v else dict_get k d'
  end.

(** The value of the last pair of [pairs] whose key is [k]. *)
Definition last_value {V} (k : string) (pairs : list (string * V)) : option V :=
  fold_left (fun found kv => if String.eqb k (fst kv) then Some (snd kv)
                             else found)
    pairs None.

(** A turn whose question is not empty: the input widget submitted it. *)
Definition submitted (t : turn) : Prop := truthy (fst t) = true.

(** Line 76. *)
Definition unavailable_reply (db_schema : string) : string :=
  "Sorry, I can't connect to the database to retrieve the schema. Error: "
  ++ db_schema.

(** The schema text after a failed introspection (line 62). *)
Definition unavailable_schema (e : string) : string :=
  "Schema unavailable due to database error: " ++ e.

(** Stub services whose catalog names a table after the marker. *)
Definition marked_world : world :=
  {| generate_content := fun _ _ => LlmText COUNT_SQL;
     connect := Connected;
     execute := fun _ => Executed (Some ["count"]) [[VInt 42]];
     catalog := CatalogRows [("Schema unavailable", "id", "integer")] |}.

(* ================================================================== *)
(** * Tactics *)
(* ================================================================== *)

(** Runs the statements of a function called from the initial state, up
    to the next answer of the world. *)
Ltac run :=
  cbv beta iota zeta delta
    [generate_db_answer generate_db_answer_body get_db_schema
     get_db_schema_body schema_guard generate_sql execute_query synthesize
     close_if_open call bind ret return_ return_optional raise try_except
     try_finally log set_conn get_conn set_query_result get_query_result
     psycopg2_connect conn_close cursor_execute cursor_execute_catalog
     description_names fetchall models_generate_content cleaned_text
     isinstance_Exception isinstance_psycopg2_Error
     conn query_result trace class message cur_description cur_rows
     cur_fetch_error
     initial_state app filter is_llm_call List.length fst snd].

(** The same for a block started in a state that is not known. *)
Ltac run_open :=
  cbv beta iota zeta delta
    [execute_query close_if_open bind ret return_ raise try_except
     try_finally log set_conn get_conn set_query_result get_query_result
     psycopg2_connect conn_close cursor_execute description_names fetchall
     isinstance_Exception isinstance_psycopg2_Error
     conn query_result trace class message cur_description cur_rows
     cur_fetch_error].

(** Unfolds the scanning functions one character at a time and decides
    the character tests met on the way. *)
Ltac scan :=
  cbn [startswith contains replace_from append String.length Nat.sub andb orb].
Ltac scan_in H :=
  cbn [startswith contains replace_from append String.length Nat.sub andb orb]
    in H.

Ltac decide_chars :=
  repeat match goal with
  | H : context [Ascii.eqb ?a ?b] |- _ =>
      destruct (Ascii.eqb_spec a b); subst; scan_in H
  | |- context [Ascii.eqb ?a ?b] =>
      destruct (Ascii.eqb_spec a b); subst; scan
  end.

(* ================================================================== *)
(** * The model at work *)
(* ================================================================== *)

Example replace_is_leftmost_first : replace "aa" "b" "aaaa" = "bb".
Proof. reflexivity. Qed.

Example replace_of_nothing : replace EmptyString "-" "abc" = "-a-b-c-".
Proof. reflexivity. Qed.

Example strip_knows_the_latin1_spaces :
  strip (chr 160 ++ " " ++ chr 28 ++ "x y" ++ chr 133 ++ nl) = "x y".
Proof. reflexivity. Qed.

Example str_of_rows :
  str_of_list
    [dict_of_pairs (combine ["a"; "b"; "a"] [VNone; VStr "it's"; VInt (-3)]);
     dict_of_pairs (combine ["a"; "b"] [VBool true; VObject "Decimal('1.50')"])]
  = "[{'a': -3, 'b': " ++ dquote ++ "it's" ++ dquote
    ++ "}, {'a': True, 'b': Decimal('1.50')}]".
Proof. reflexivity. Qed.

Example repr_escapes :
  repr_str ("a" ++ nl ++ chr 9 ++ backslash ++ chr 127 ++ chr 233)
  = "'a" ++ backslash ++ "n" ++ backslash ++ "t" ++ backslash ++ backslash
    ++ backslash ++ "x7f" ++ chr 233 ++ "'".
Proof. reflexivity. Qed.

Example get_db_schema_of_the_stub :
  get_db_schema count_world
  = (Value SAMPLE_SCHEMA, [DbConnect true; DbExecute CATALOG_QUERY; DbClose]).
Proof. reflexivity. Qed.

Example get_db_schema_offline :
  get_db_schema offline_world
  = (Value "Schema unavailable due to database error: could not connect to server",
     [DbConnect false]).
Proof. reflexivity. Qed.

Example counting_turn :
  generate_db_answer count_world COUNT_QUESTION SAMPLE_SCHEMA
  = (Value "There are 42 orders.",
     [LlmCall MODEL (sql_generation_prompt SAMPLE_SCHEMA COUNT_QUESTION);
      DbConnect true; DbExecute COUNT_SQL; DbClose;
      LlmCall MODEL
        (final_answer_prompt COUNT_QUESTION COUNT_SQL "[{'count': 42}]")]).
Proof. reflexivity. Qed.

Example session_of_two_questions :
  transcript (run_turns (open_session count_world)
                [(COUNT_QUESTION, count_world);
                 (MISSING_QUESTION, failing_world)])
  = [GREETING;
     user_message COUNT_QUESTION;
     assistant_message "There are 42 orders.";
     user_message MISSING_QUESTION;
     assistant_message "Error generating final answer: 503 UNAVAILABLE"].
Proof. reflexivity. Qed.

Example far_date_turn :
  generate_db_answer far_date_world FAR_QUESTION SAMPLE_SCHEMA
  = (Throws FAR_ERROR,
     [LlmCall MODEL (sql_generation_prompt SAMPLE_SCHEMA FAR_QUESTION);
      DbConnect true; DbExecute FAR_SQL; DbClose]).
Proof. reflexivity. Qed.

Example mute_turn :
  generate_db_answer mute_world COUNT_QUESTION SAMPLE_SCHEMA
  = (NoneValue,
     [LlmCall MODEL (sql_generation_prompt SAMPLE_SCHEMA COUNT_QUESTION);
      DbConnect true; DbExecute COUNT_SQL; DbClose;
      LlmCall MODEL
        (final_answer_prompt COUNT_QUESTION COUNT_SQL "[{'count': 42}]")]).
Proof. reflexivity. Qed.

Example sql_response_without_text :
  generate_db_answer
    (stub_world LlmNoText (LlmText "Done.") Connected (Executed None []))
    COUNT_QUESTION SAMPLE_SCHEMA
  = (Value "Error generating SQL: 'NoneType' object has no attribute 'strip'",
     [LlmCall MODEL (sql_generation_prompt SAMPLE_SCHEMA COUNT_QUESTION)]).
Proof. reflexivity. Qed.

Example crashed_turn_page :
  rendered (app_script ClientCreated insert_world
              (Some "Add milk to the products.") (open_session count_world))
  = [ChatBox "assistant" [content GREETING];
     ChatBox "user" [Some "Add milk to the products."];
     ChatBox "assistant" []].
Proof. reflexivity. Qed.

(* ================================================================== *)
(** * Facts about the string built-ins *)
(* ================================================================== *)

Section StringFacts.

Lemma append_nil_r (s : string) : s ++ EmptyString = s.
Proof. induction s as [|c s IH]; simpl; [reflexivity | now rewrite IH]. Qed.

Lemma append_assoc (a b c : string) : (a ++ b) ++ c = a ++ (b ++ c).
Proof. induction a as [|x a IH]; simpl; [reflexivity | now rewrite IH]. Qed.

Lemma startswith_app (p t : string) : startswith p (p ++ t) = true.
Proof.
  induction p as [|a p IH]; simpl; [reflexivity|].
  now rewrite Ascii.eqb_refl, IH.
Qed.

Lemma startswith_weaken (p s t : string) :
  startswith p s = true -> startswith p (s ++ t) = true.
Proof.
  revert s; induction p as [|a p IH]; intros s H; [reflexivity|].
  destruct s as [|b s]; simpl in *; [discriminate|].
  apply andb_true_iff in H as [H1 H2].
  now rewrite H1, (IH _ H2).
Qed.

Lemma contains_app_l (sub s t : string) :
  contains sub s = true -> contains sub (s ++ t) = true.
Proof.
  induction s as [|c s IH]; simpl; intros H.
  - rewrite orb_false_r in H.
    destruct sub; [destruct t; reflexivity | discriminate].
  - apply orb_true_iff in H as [H|H].
    + change (String c (s ++ t)) with (String c s ++ t).
      now rewrite (startswith_weaken _ _ _ H).
    + rewrite (IH H). apply orb_true_r.
Qed.

Lemma contains_app_r (sub s t : string) :
  contains sub t = true -> contains sub (s ++ t) = true.
Proof.
  induction s as [|c s IH]; simpl; intros H; [exact H|].
  rewrite (IH H). apply orb_true_r.
Qed.

Lemma contains_cons (sub : string) (c : ascii) (s : string) :
  contains sub (String c s) = false -> contains sub s = false.
Proof. simpl. intros H. now apply orb_false_iff in H as [_ H]. Qed.

(** ** [strip] *)

Lemma lstrip_all_space (ws t : string) :
  all_space ws = true -> lstrip (ws ++ t) = lstrip t.
Proof.
  induction ws as [|c ws IH]; simpl; intros H; [reflexivity|].
  apply andb_true_iff in H as [H1 H2]. now rewrite H1, IH.
Qed.

Lemma rstrip_all_space (ws : string) : all_space ws = true -> rstrip ws = EmptyString.
Proof.
  induction ws as [|c ws IH]; simpl; intros H; [reflexivity|].
  apply andb_true_iff in H as [H1 H2]. now rewrite (IH H2), H1.
Qed.

Lemma rstrip_app_all_space (t ws : string) :
  all_space ws = true -> rstrip (t ++ ws) = rstrip t.
Proof.
  intros H. induction t as [|c t IH]; simpl.
  - now apply rstrip_all_space.
  - now rewrite IH.
Qed.

Lemma rstrip_app_nonspace (t : string) (c : ascii) (u : string) :
  rstrip (String c u) = String c u ->
  rstrip (t ++ String c u) = t ++ String c u.
Proof.
  intros H. induction t as [|x t IH]; [exact H|].
  change (String x t ++ String c u) with (String x (t ++ String c u)).
  cbn [rstrip]. rewrite IH. destruct t; reflexivity.
Qed.

Lemma rstrip_cons (c : ascii) (s : string) :
  rstrip (String c s) =
  match rstrip s with
  | EmptyString => if isspace c then EmptyString else String c EmptyString
  | r => String c r
  end.
Proof. reflexivity. Qed.

Lemma rstrip_idempotent (s : string) : rstrip (rstrip s) = rstrip s.
Proof.
  induction s as [|c s IH]; [reflexivity|].
  rewrite rstrip_cons. destruct (rstrip s) as [|d r] eqn:E.
  - destruct (isspace c) eqn:Ec; [reflexivity|]. simpl. now rewrite Ec.
  - rewrite rstrip_cons, IH. reflexivity.
Qed.

Lemma rstrip_head (c : ascii) (s : string) :
  isspace c = false -> exists r, rstrip (String c s) = String c r.
Proof.
  intros H. cbn [rstrip]. destruct (rstrip s).
  - rewrite H. now eexists.
  - now eexists.
Qed.

Lemma lstrip_head (s : string) :
  lstrip s = EmptyString \/
  exists c r, lstrip s = String c r /\ isspace c = false.
Proof.
  induction s as [|c s IH]; simpl; [now left|].
  destruct (isspace c) eqn:E; [exact IH|].
  right. now exists c, s.
Qed.

Lemma strip_idempotent (s : string) : strip (strip s) = strip s.
Proof.
  unfold strip.
  destruct (lstrip_head s) as [E | (c & r & E & Hc)]; rewrite E; [reflexivity|].
  destruct (rstrip_head c r Hc) as [r' E'].
  rewrite E'. simpl lstrip. rewrite Hc. rewrite <- E'.
  apply rstrip_idempotent.
Qed.

Lemma lstrip_suffix (s : string) : exists ws, s = ws ++ lstrip s.
Proof.
  induction s as [|c s [ws IH]]; simpl.
  - now exists EmptyString.
  - destruct (isspace c).
    + exists (String c ws). simpl. now rewrite <- IH.
    + now exists EmptyString.
Qed.

Lemma rstrip_prefix (s : string) : exists ws, s = rstrip s ++ ws.
Proof.
  induction s as [|c s [ws IH]].
  - now exists EmptyString.
  - rewrite rstrip_cons. destruct (rstrip s) as [|d r] eqn:E.
    + destruct (isspace c).
      * exists (String c s). reflexivity.
      * exists ws. simpl in *. now rewrite <- IH.
    + exists ws. rewrite IH at 1. reflexivity.
Qed.

Lemma contains_strip (sub s : string) :
  contains sub s = false -> contains sub (strip s) = false.
Proof.
  intros H. destruct (contains sub (strip s)) eqn:E; [|reflexivity].
  unfold strip in E.
  destruct (rstrip_prefix (lstrip s)) as [ws2 H2].
  destruct (lstrip_suffix s) as [ws1 H1].
  apply (contains_app_l _ _ ws2) in E. rewrite <- H2 in E.
  apply (contains_app_r _ ws1) in E. rewrite <- H1 in E.
  congruence.
Qed.

(** ** [replace] *)

Lemma replace_from_absent (old new s : string) :
  contains old s = false -> replace_from old new 0 s = s.
Proof.
  induction s as [|c s IH]; [reflexivity|].
  intros H. simpl in H. apply orb_false_iff in H as [H1 H2].
  cbn [replace_from]. rewrite H1. now rewrite (IH H2).
Qed.

Lemma replace_from_skip (old new u t : string) :
  replace_from old new (String.length u) (u ++ t) = replace_from old new 0 t.
Proof.
  induction u as [|c u IH]; simpl; [destruct t; reflexivity | exact IH].
Qed.

Lemma replace_from_head (a : ascii) (old new t : string) :
  replace_from (String a old) new 0 (String a old ++ t)
  = new ++ replace_from (String a old) new 0 t.
Proof.
  change (String a old ++ t) with (String a (old ++ t)).
  cbn [replace_from].
  change (String a (old ++ t)) with (String a old ++ t).
  rewrite startswith_app.
  replace (String.length (String a old) - 1) with (String.length old)
    by (simpl; lia).
  now rewrite replace_from_skip.
Qed.

(** ** Code fences *)


Lemma replace_trailing_fence (s : string) :
  contains FENCE s = false ->
  replace_from FENCE EmptyString 0 (s ++ FENCE) = s.
Proof.
  unfold FENCE.
  induction s as [|c s IH]; intros H; [reflexivity|].
  pose proof (contains_cons _ _ _ H) as Hs. specialize (IH Hs).
  cbn [contains] in H. apply orb_false_iff in H as [Hp _].
  change (String c s ++ "```") with (String c (s ++ "```")).
  cbn [replace_from].
  destruct (startswith "```" (String c (s ++ "```"))) eqn:E.
  - destruct s as [|c1 [|c2 s]]; scan_in E; scan_in Hp; scan;
      decide_chars; try discriminate; reflexivity.
  - now rewrite IH.
Qed.

Lemma sql_fence_absent (s : string) :
  contains FENCE s = false -> contains SQL_FENCE (s ++ FENCE) = false.
Proof.
  unfold FENCE, SQL_FENCE.
  induction s as [|c s IH]; intros H; [reflexivity|].
  pose proof (contains_cons _ _ _ H) as Hs. specialize (IH Hs).
  cbn [contains] in H. apply orb_false_iff in H as [Hp _].
  change (String c s ++ "```") with (String c (s ++ "```")).
  cbn [contains]. rewrite IH, orb_false_r.
  destruct s as [|c1 [|c2 s]]; scan_in Hp; scan;
    decide_chars; try discriminate; reflexivity.
Qed.

End StringFacts.

(* ================================================================== *)
(** * The SQL generator's cleaning step *)
(* ================================================================== *)

Section CleanSql.

Lemma startswith_shorter (p q s : string) :
  startswith (p ++ q) s = true -> startswith p s = true.
Proof.
  revert s; induction p as [|a p IH]; intros s H; [reflexivity|].
  destruct s as [|b s]; simpl in *; [discriminate|].
  apply andb_true_iff in H as [H1 H2].
  now rewrite H1, (IH _ H2).
Qed.

Lemma contains_shorter (p q s : string) :
  contains p s = false -> contains (p ++ q) s = false.
Proof.
  induction s as [|c s IH]; cbn [contains]; intros H;
    apply orb_false_iff in H as [H1 H2].
  - rewrite orb_false_r.
    destruct (startswith (p ++ q) EmptyString) eqn:E; [|reflexivity].
    apply startswith_shorter in E. congruence.
  - rewrite (IH H2), orb_false_r.
    destruct (startswith (p ++ q) (String c s)) eqn:E; [|reflexivity].
    apply startswith_shorter in E. congruence.
Qed.

Lemma rstrip_fence (t : string) : rstrip (t ++ FENCE) = t ++ FENCE.
Proof. now apply rstrip_app_nonspace. Qed.

(** Trimming a response that is wrapped in fences only drops what is
    around the fences. *)
Lemma strip_fenced (ws1 ws2 body : string) :
  all_space ws1 = true -> all_space ws2 = true ->
  strip (ws1 ++ FENCE ++ body ++ FENCE ++ ws2) = FENCE ++ body ++ FENCE.
Proof.
  intros H1 H2. unfold strip.
  rewrite (lstrip_all_space _ _ H1).
  change (lstrip (FENCE ++ body ++ FENCE ++ ws2))
    with (FENCE ++ body ++ FENCE ++ ws2).
  replace (FENCE ++ body ++ FENCE ++ ws2)
    with (((FENCE ++ body) ++ FENCE) ++ ws2) by now rewrite !append_assoc.
  rewrite (rstrip_app_all_space _ _ H2), rstrip_fence.
  apply append_assoc.
Qed.

Lemma replace_absent (old new s : string) :
  contains old s = false -> replace old new s = s.
Proof.
  destruct old as [|a old]; intros H.
  - destruct s; discriminate.
  - now apply replace_from_absent.
Qed.

Lemma replace_sql_fence_head (t : string) :
  replace SQL_FENCE EmptyString (SQL_FENCE ++ t)
  = replace SQL_FENCE EmptyString t.
Proof. exact (replace_from_head "`" "``sql" EmptyString t). Qed.

Lemma replace_fence_head (t : string) :
  replace FENCE EmptyString (FENCE ++ t) = replace FENCE EmptyString t.
Proof. exact (replace_from_head "`" "``" EmptyString t). Qed.

Lemma replace_fence_trailing (s : string) :
  contains FENCE s = false -> replace FENCE EmptyString (s ++ FENCE) = s.
Proof. exact (replace_trailing_fence s). Qed.

Lemma clean_sql_eq (text : string) :
  clean_sql text
  = strip (replace FENCE EmptyString
             (replace SQL_FENCE EmptyString (strip text))).
Proof. reflexivity. Qed.

Lemma clean_sql_sql_fence (ws1 ws2 stmt : string) :
  all_space ws1 = true -> all_space ws2 = true ->
  contains FENCE stmt = false ->
  clean_sql (ws1 ++ SQL_FENCE ++ stmt ++ FENCE ++ ws2) = strip stmt.
Proof.
  intros H1 H2 Hs. rewrite clean_sql_eq.
  assert (E : strip (ws1 ++ SQL_FENCE ++ stmt ++ FENCE ++ ws2)
              = SQL_FENCE ++ stmt ++ FENCE)
    by exact (strip_fenced ws1 ws2 ("sql" ++ stmt) H1 H2).
  rewrite E, replace_sql_fence_head.
  rewrite (replace_absent _ _ _ (sql_fence_absent _ Hs)).
  now rewrite (replace_fence_trailing _ Hs).
Qed.

Lemma clean_sql_bare_fence (ws1 ws2 stmt : string) :
  all_space ws1 = true -> all_space ws2 = true ->
  contains FENCE stmt = false ->
  contains SQL_FENCE (FENCE ++ stmt ++ FENCE) = false ->
  clean_sql (ws1 ++ FENCE ++ stmt ++ FENCE ++ ws2) = strip stmt.
Proof.
  intros H1 H2 Hs Hq. rewrite clean_sql_eq.
  rewrite (strip_fenced _ _ _ H1 H2).
  rewrite (replace_absent _ _ _ Hq), replace_fence_head.
  now rewrite (replace_fence_trailing _ Hs).
Qed.

Lemma clean_sql_no_fence (text : string) :
  contains FENCE text = false -> clean_sql text = strip text.
Proof.
  intros H. rewrite clean_sql_eq.
  pose proof (contains_strip _ _ H) as Hf.
  pose proof (contains_shorter FENCE "sql" _ Hf) as Hq.
  change (FENCE ++ "sql") with SQL_FENCE in Hq.
  rewrite (replace_absent _ _ _ Hq), (replace_absent _ _ _ Hf).
  apply strip_idempotent.
Qed.

End CleanSql.

(** Claim C5, as the code has it.  The generator trims the response,
    deletes every occurrence of the marker [```sql] and then of [```], and
    trims again.  Hence a response [```sql <stmt> ```], with any whitespace
    around it, gives [<stmt>] trimmed when [<stmt>] holds no [```]; a
    response [``` <stmt> ```] gives [<stmt>] trimmed when moreover the
    response holds no [```sql]; and a response without [```] is returned
    trimmed and otherwise unchanged. *)
Theorem clean_sql_strips_fences (ws1 ws2 stmt text : string) :
  (all_space ws1 = true -> all_space ws2 = true ->
   contains FENCE stmt = false ->
   clean_sql (ws1 ++ SQL_FENCE ++ stmt ++ FENCE ++ ws2) = strip stmt)
  /\ (all_space ws1 = true -> all_space ws2 = true ->
      contains FENCE stmt = false ->
      contains SQL_FENCE (FENCE ++ stmt ++ FENCE) = false ->
      clean_sql (ws1 ++ FENCE ++ stmt ++ FENCE ++ ws2) = strip stmt)
  /\ (contains FENCE text = false -> clean_sql text = strip text).
Proof.
  split; [|split].
  - apply clean_sql_sql_fence.
  - apply clean_sql_bare_fence.
  - apply clean_sql_no_fence.
Qed.

Lemma clean_sql_strips_fences_witness :
  clean_sql (nl ++ SQL_FENCE ++ (nl ++ "SELECT 1;" ++ nl) ++ FENCE ++ nl)
  = "SELECT 1;"
  /\ clean_sql (nl ++ FENCE ++ (nl ++ "SELECT 1;" ++ nl) ++ FENCE ++ nl)
     = "SELECT 1;"
  /\ clean_sql "  SELECT 1; " = "SELECT 1;".
Proof.
  destruct (clean_sql_strips_fences nl nl (nl ++ "SELECT 1;" ++ nl)
              "  SELECT 1; ") as (A & B & C).
  split; [|split].
  - exact (A eq_refl eq_refl eq_refl).
  - exact (B eq_refl eq_refl eq_refl eq_refl).
  - exact (C eq_refl).
Defined.

(** Claim C5 as stated fails: this fenced response does not give its
    statement trimmed, the fence inside the statement being deleted too. *)
Lemma clean_sql_inner_fence_lost :
  clean_sql (SQL_FENCE ++ (nl ++ "SELECT '```' AS fence;" ++ nl) ++ FENCE)
  = "SELECT '' AS fence;"
  /\ clean_sql (SQL_FENCE ++ (nl ++ "SELECT '```' AS fence;" ++ nl) ++ FENCE)
     <> strip (nl ++ "SELECT '```' AS fence;" ++ nl).
Proof. split; [reflexivity | vm_compute; discriminate]. Qed.

(** A bare fence followed by the letters [sql] is taken for the marker. *)
Example clean_sql_bare_fence_sqlite :
  clean_sql (FENCE ++ "sqlite_version()" ++ FENCE) = "ite_version()".
Proof. reflexivity. Qed.

(* ================================================================== *)
(** * The paths through [generate_db_answer] *)
(* ================================================================== *)



Section Pipeline.

Variable w : world.
Variables question db_schema : string.

Let sql_prompt : string := sql_generation_prompt db_schema question.

Let answer_prompt (sql_query result_text : string) : string :=
  final_answer_prompt question sql_query result_text.

Lemma generate_db_answer_schema_unavailable :
  contains SCHEMA_MARKER db_schema = true ->
  generate_db_answer w question db_schema
  = (Value ("Sorry, I can't connect to the database to retrieve the schema. Error: "
            ++ db_schema), []).
Proof. intros H. run. rewrite H. reflexivity. Qed.

Hypothesis schema_ok : contains SCHEMA_MARKER db_schema = false.

Lemma generate_db_answer_sql_failure (e : string) :
  generate_content w 0 sql_prompt = LlmFailure e ->
  generate_db_answer w question db_schema
  = (Value ("Error generating SQL: " ++ e), [LlmCall MODEL sql_prompt]).
Proof.
  intros H. run. rewrite schema_ok. run. fold sql_prompt. rewrite H.
  reflexivity.
Qed.

(** A response without text fails at the first [.strip] of line 95, inside
    the [try] of the generator. *)
Lemma generate_db_answer_sql_no_text :
  generate_content w 0 sql_prompt = LlmNoText ->
  generate_db_answer w question db_schema
  = (Value "Error generating SQL: 'NoneType' object has no attribute 'strip'",
     [LlmCall MODEL sql_prompt]).
Proof.
  intros H. run. rewrite schema_ok. run. fold sql_prompt. rewrite H.
  reflexivity.
Qed.

Variable text : string.
Hypothesis sql_ok : generate_content w 0 sql_prompt = LlmText text.

Let sql_query : string := clean_sql text.

Lemma generate_db_answer_connect_error (e : string) :
  connect w = ConnectError e ->
  generate_db_answer w question db_schema
  = (synthesis_reply
       (generate_content w 1
          (answer_prompt sql_query ("Database Error: " ++ e))),
     [LlmCall MODEL sql_prompt; DbConnect false;
      LlmCall MODEL (answer_prompt sql_query ("Database Error: " ++ e))]).
Proof.
  intros H. run. rewrite schema_ok. run. fold sql_prompt. rewrite sql_ok.
  run. rewrite H. run.
  fold sql_query. fold (answer_prompt sql_query ("Database Error: " ++ e)).
  destruct (generate_content w 1 _); reflexivity.
Qed.

Lemma generate_db_answer_execute_error (e : string) :
  connect w = Connected ->
  execute w sql_query = ExecuteError e ->
  generate_db_answer w question db_schema
  = (synthesis_reply
       (generate_content w 1
          (answer_prompt sql_query ("Database Error: " ++ e))),
     [LlmCall MODEL sql_prompt; DbConnect true; DbExecute sql_query; DbClose;
      LlmCall MODEL (answer_prompt sql_query ("Database Error: " ++ e))]).
Proof.
  intros H1 H2. run. rewrite schema_ok. run. fold sql_prompt. rewrite sql_ok.
  run. rewrite H1. run. fold sql_query. rewrite H2. run.
  fold (answer_prompt sql_query ("Database Error: " ++ e)).
  destruct (generate_content w 1 _); reflexivity.
Qed.

Lemma generate_db_answer_no_result_set (rows : list (list value)) :
  connect w = Connected ->
  execute w sql_query = Executed None rows ->
  generate_db_answer w question db_schema
  = (Throws {| class := TypeError;
               message := "'NoneType' object is not iterable" |},
     [LlmCall MODEL sql_prompt; DbConnect true; DbExecute sql_query; DbClose]).
Proof.
  intros H1 H2. run. rewrite schema_ok. run. fold sql_prompt. rewrite sql_ok.
  run. rewrite H1. run. fold sql_query. rewrite H2. reflexivity.
Qed.

Lemma generate_db_answer_rows (cols : list string) (rows : list (list value)) :
  connect w = Connected ->
  execute w sql_query = Executed (Some cols) rows ->
  generate_db_answer w question db_schema
  = (synthesis_reply
       (generate_content w 1
          (answer_prompt sql_query (str_of_list (result_rows cols rows)))),
     [LlmCall MODEL sql_prompt; DbConnect true; DbExecute sql_query; DbClose;
      LlmCall MODEL
        (answer_prompt sql_query (str_of_list (result_rows cols rows)))]).
Proof.
  intros H1 H2. run. rewrite schema_ok. run. fold sql_prompt. rewrite sql_ok.
  run. rewrite H1. run. fold sql_query. rewrite H2. run.
  fold (result_rows cols rows).
  fold (answer_prompt sql_query (str_of_list (result_rows cols rows))).
  destruct (generate_content w 1 _); reflexivity.
Qed.

(** A [psycopg2.Error] raised by [fetchall()] is caught like one raised by
    [execute]. *)
Lemma generate_db_answer_fetch_error (cols : list string) (e : exn) :
  connect w = Connected ->
  execute w sql_query = FetchRaises cols e ->
  isinstance_psycopg2_Error e = true ->
  generate_db_answer w question db_schema
  = (synthesis_reply
       (generate_content w 1
          (answer_prompt sql_query ("Database Error: " ++ message e))),
     [LlmCall MODEL sql_prompt; DbConnect true; DbExecute sql_query; DbClose;
      LlmCall MODEL
        (answer_prompt sql_query ("Database Error: " ++ message e))]).
Proof.
  intros H1 H2 H3. destruct e as [c m].
  destruct c; try discriminate H3.
  run. rewrite schema_ok. run. fold sql_prompt.
  rewrite sql_ok. run. rewrite H1. run. fold sql_query. rewrite H2. run.
  fold (answer_prompt sql_query ("Database Error: " ++ m)).
  destruct (generate_content w 1 _); reflexivity.
Qed.

(** An exception of another class raised by [fetchall()] leaves the call,
    after the connection is closed. *)
Lemma generate_db_answer_fetch_raises (cols : list string) (e : exn) :
  connect w = Connected ->
  execute w sql_query = FetchRaises cols e ->
  isinstance_psycopg2_Error e = false ->
  generate_db_answer w question db_schema
  = (Throws e,
     [LlmCall MODEL sql_prompt; DbConnect true; DbExecute sql_query; DbClose]).
Proof.
  intros H1 H2 H3. destruct e as [c m].
  destruct c; try discriminate H3;
    run; rewrite schema_ok; run; fold sql_prompt;
    rewrite sql_ok; run; rewrite H1; run; fold sql_query; rewrite H2;
    reflexivity.
Qed.

End Pipeline.

(* ================================================================== *)
(** * The stages on their own *)
(* ================================================================== *)

Section Stages.

Variable w : world.

(** Every way the query executor can end. *)
Lemma execute_query_cases (sql_query : string) (st : state) :
  execute_query w sql_query st =
  match connect w with
  | ConnectError e =>
      (Normal tt,
       {| conn := None; query_result := "Database Error: " ++ e;
          trace := (trace st ++ [DbConnect false])%list |})
  | Connected =>
      match execute w sql_query with
      | ExecuteError e =>
          (Normal tt,
           {| conn := Some Connection;
              query_result := "Database Error: " ++ e;
              trace := (trace st
                        ++ [DbConnect true; DbExecute sql_query; DbClose])%list |})
      | Executed None _ =>
          (Raised {| class := TypeError;
                     message := "'NoneType' object is not iterable" |},
           {| conn := Some Connection; query_result := "No data found.";
              trace := (trace st
                        ++ [DbConnect true; DbExecute sql_query; DbClose])%list |})
      | Executed (Some cols) rows =>
          (Normal tt,
           {| conn := Some Connection;
              query_result := str_of_list (result_rows cols rows);
              trace := (trace st
                        ++ [DbConnect true; DbExecute sql_query; DbClose])%list |})
      | FetchRaises _ e =>
          if isinstance_psycopg2_Error e
          then
            (Normal tt,
             {| conn := Some Connection;
                query_result := "Database Error: " ++ message e;
                trace := (trace st
                          ++ [DbConnect true; DbExecute sql_query;
                              DbClose])%list |})
          else
            (Raised e,
             {| conn := Some Connection; query_result := "No data found.";
                trace := (trace st
                          ++ [DbConnect true; DbExecute sql_query;
                              DbClose])%list |})
      end
  end.
Proof.
  run_open. destruct (connect w); run_open; [|reflexivity].
  destruct (execute w sql_query) as [e|[cols|] rows|cols [c m]];
    [| | |destruct c]; run_open;
    rewrite <- !app_assoc; reflexivity.
Qed.

(** Every way the schema introspector can end. *)
Lemma get_db_schema_cases :
  get_db_schema w =
  match connect w with
  | ConnectError e =>
      (Value ("Schema unavailable due to database error: " ++ e),
       [DbConnect false])
  | Connected =>
      match catalog w with
      | CatalogError e =>
          (Value ("Schema unavailable due to database error: " ++ e),
           [DbConnect true; DbExecute CATALOG_QUERY; DbClose])
      | CatalogRows rows =>
          (Value (render_schema (build_schema rows)),
           [DbConnect true; DbExecute CATALOG_QUERY; DbClose])
      end
  end.
Proof.
  run. destruct (connect w); run; [|reflexivity].
  destruct (catalog w); reflexivity.
Qed.

Lemma get_db_schema_returns : exists text, fst (get_db_schema w) = Value text.
Proof.
  rewrite get_db_schema_cases.
  destruct (connect w); [destruct (catalog w)|]; eexists; reflexivity.
Qed.

(** An unreachable database leaves the marker in the schema text. *)
Lemma get_db_schema_unreachable (e : string) :
  connect w = ConnectError e ->
  exists text, fst (get_db_schema w) = Value text
               /\ contains SCHEMA_MARKER text = true.
Proof.
  intros H. rewrite get_db_schema_cases, H.
  eexists; split; reflexivity.
Qed.

End Stages.

(* ================================================================== *)
(** * The script: transcript of a session *)
(* ================================================================== *)

Section Script.

Lemma cached_schema_returns (w : world) (s : session) :
  exists text, cached_get_db_schema w s = Value text.
Proof.
  unfold cached_get_db_schema. destruct (schema_cache s).
  - now eexists.
  - apply get_db_schema_returns.
Qed.

(** A run replays the history and only ever appends to it. *)
Lemma script_run_appends (w : world) (input : option string) (s : session) :
  exists suffix,
    history (fst (script_run w input s)) = (history s ++ suffix)%list.
Proof.
  unfold script_run.
  destruct (cached_schema_returns w s) as [text ->].
  fold (history s).
  destruct input as [prompt|]; [|exists []; simpl; now rewrite app_nil_r].
  destruct (truthy prompt); [|exists []; simpl; now rewrite app_nil_r].
  destruct (fst (generate_db_answer w prompt text)); simpl.
  - rewrite <- app_assoc. now eexists.
  - rewrite <- app_assoc. now eexists.
  - now eexists.
Qed.

(** A turn whose pipeline call returns appends the question and the reply. *)
Lemma run_turn_answered (w : world) (prompt db_schema answer : string)
    (s : session) :
  schema_cache s = Some db_schema ->
  truthy prompt = true ->
  fst (generate_db_answer w prompt db_schema) = Value answer ->
  run_turn s (prompt, w)
  = {| messages := Some (history s
                         ++ [user_message prompt; assistant_message answer])%list;
       schema_cache := Some db_schema |}.
Proof.
  intros Hc Hp Ha. unfold run_turn, script_run, cached_get_db_schema. simpl.
  rewrite Hc, Hp, Ha. fold (history s). simpl.
  now rewrite <- app_assoc.
Qed.

(** A turn whose pipeline call returns [None] stores a reply without
    text. *)
Lemma run_turn_silent (w : world) (prompt db_schema : string) (s : session) :
  schema_cache s = Some db_schema ->
  truthy prompt = true ->
  fst (generate_db_answer w prompt db_schema) = NoneValue ->
  run_turn s (prompt, w)
  = {| messages := Some (history s
                         ++ [user_message prompt;
                             {| role := "assistant"; content := None |}])%list;
       schema_cache := Some db_schema |}.
Proof.
  intros Hc Hp Ha. unfold run_turn, script_run, cached_get_db_schema. simpl.
  rewrite Hc, Hp, Ha. fold (history s). simpl.
  now rewrite <- app_assoc.
Qed.

(** A turn whose pipeline call raises leaves the question without reply. *)
Lemma run_turn_aborted (w : world) (prompt db_schema : string) (e : exn)
    (s : session) :
  schema_cache s = Some db_schema ->
  truthy prompt = true ->
  fst (generate_db_answer w prompt db_schema) = Throws e ->
  run_turn s (prompt, w)
  = {| messages := Some (history s ++ [user_message prompt])%list;
       schema_cache := Some db_schema |}.
Proof.
  intros Hc Hp Ha. unfold run_turn, script_run, cached_get_db_schema. simpl.
  rewrite Hc, Hp, Ha. reflexivity.
Qed.

Lemma open_session_history (w : world) : history (open_session w) = [GREETING].
Proof.
  unfold open_session, script_run.
  destruct (cached_schema_returns w new_session) as [text ->]. reflexivity.
Qed.

Lemma open_session_transcript (w : world) :
  transcript (open_session w) = [GREETING].
Proof.
  unfold open_session, script_run.
  destruct (cached_schema_returns w new_session) as [text ->]. reflexivity.
Qed.

Lemma run_turn_answered_length (s : session) (t : turn) :
  answered t ->
  List.length (history (run_turn s t)) = (List.length (history s) + 2)%nat.
Proof.
  intros [Hp Ha]. destruct t as [prompt w]. simpl in *.
  unfold run_turn, script_run. simpl.
  destruct (cached_schema_returns w s) as [text ->].
  rewrite Hp. destruct (Ha text) as [a ->]. fold (history s).
  cbn [fst history messages].
  rewrite !length_app. simpl. lia.
Qed.

(** While every turn's pipeline call returns, the transcript grows by two
    messages a turn. *)
Lemma answered_turns_length (turns : list turn) (s : session) :
  Forall answered turns ->
  List.length (history (run_turns s turns))
  = (List.length (history s) + 2 * List.length turns)%nat.
Proof.
  revert s. induction turns as [|t turns IH]; intros s H; simpl.
  - lia.
  - inversion H as [|? ? Ht Hrest]; subst.
    unfold run_turns in *. simpl.
    rewrite (IH _ Hrest), (run_turn_answered_length _ _ Ht). lia.
Qed.

Lemma exchange_answered (db_schema : string) (t : turn) (answer : string) :
  fst (generate_db_answer (snd t) (fst t) db_schema) = Value answer ->
  exchange db_schema t = [user_message (fst t); assistant_message answer].
Proof. intros H. unfold exchange. now rewrite H. Qed.

(** While every turn's pipeline call returns, the transcript is the
    greeting followed, turn after turn, by the question and its reply. *)
Lemma answered_turns_history (db_schema : string) (turns : list turn)
    (s : session) :
  schema_cache s = Some db_schema ->
  Forall answered turns ->
  history (run_turns s turns)
  = (history s ++ flat_map (exchange db_schema) turns)%list.
Proof.
  revert s. induction turns as [|[prompt w] turns IH]; intros s Hc H.
  - simpl. now rewrite app_nil_r.
  - inversion H as [|? ? [Hp Ha] Hrest]; subst. simpl in Hp, Ha.
    destruct (Ha db_schema) as [answer Hanswer].
    change (run_turns s ((prompt, w) :: turns))
      with (run_turns (run_turn s (prompt, w)) turns).
    rewrite (run_turn_answered w prompt db_schema answer s Hc Hp Hanswer).
    rewrite IH; [|reflexivity|exact Hrest].
    cbn [history messages flat_map].
    rewrite (exchange_answered db_schema (prompt, w) answer Hanswer).
    now rewrite <- app_assoc.
Qed.

End Script.

(* ================================================================== *)
(** * Properties of the pipeline *)
(* ================================================================== *)

(** Splits on every choice the world makes during a call of
    [generate_db_answer], rewriting the call by the matching path lemma. *)
Ltac pipeline_cases w question db_schema :=
  let Hm := fresh "Hmarker" in
  let Hg := fresh "Hsql" in
  let Hc := fresh "Hconnect" in
  let Hx := fresh "Hexecute" in
  let Hk := fresh "Hclass" in
  destruct (contains SCHEMA_MARKER db_schema) eqn:Hm;
  [ rewrite (generate_db_answer_schema_unavailable w question db_schema Hm)
  | destruct (generate_content w 0 (sql_generation_prompt db_schema question))
      as [?text| |?e] eqn:Hg;
    [ destruct (connect w) as [|?e] eqn:Hc;
      [ match type of Hg with
        | _ = LlmText ?t =>
            destruct (execute w (clean_sql t))
              as [?e|[?cols|] ?rows|?cols ?e] eqn:Hx;
            [ rewrite (generate_db_answer_execute_error
                         w question db_schema Hm _ Hg _ Hc Hx)
            | rewrite (generate_db_answer_rows
                         w question db_schema Hm _ Hg _ _ Hc Hx)
            | rewrite (generate_db_answer_no_result_set
                         w question db_schema Hm _ Hg _ Hc Hx)
            | match type of Hx with
              | _ = FetchRaises _ ?x =>
                  destruct (isinstance_psycopg2_Error x) eqn:Hk;
                  [ rewrite (generate_db_answer_fetch_error
                               w question db_schema Hm _ Hg _ _ Hc Hx Hk)
                  | rewrite (generate_db_answer_fetch_raises
                               w question db_schema Hm _ Hg _ _ Hc Hx Hk) ]
              end ]
        end
      | rewrite (generate_db_answer_connect_error
                   w question db_schema Hm _ Hg _ Hc) ]
    | rewrite (generate_db_answer_sql_no_text w question db_schema Hm Hg)
    | rewrite (generate_db_answer_sql_failure w question db_schema Hm _ Hg) ] ].

(** Claim C3.  In a turn taken while the schema text holds the marker
    "Schema unavailable", the pipeline returns the text saying that the
    database cannot be reached, without any call to the LLM or to the
    database, and that text is the reply appended to the transcript. *)
Theorem unavailable_schema_short_circuits
    (w : world) (s : session) (prompt db_schema : string) :
  contains SCHEMA_MARKER db_schema = true ->
  generate_db_answer w prompt db_schema
  = (Value ("Sorry, I can't connect to the database to retrieve the schema. Error: "
            ++ db_schema), [])
  /\ (schema_cache s = Some db_schema -> truthy prompt = true ->
      transcript (run_turn s (prompt, w))
      = (history s
         ++ [user_message prompt;
             assistant_message
               ("Sorry, I can't connect to the database to retrieve the schema. Error: "
                ++ db_schema)])%list).
Proof.
  intros H.
  pose proof (generate_db_answer_schema_unavailable w prompt db_schema H) as E.
  split; [exact E|].
  intros Hc Hp.
  rewrite (run_turn_answered w prompt db_schema _ s Hc Hp (f_equal fst E)).
  reflexivity.
Qed.

Lemma unavailable_schema_short_circuits_witness :
  contains SCHEMA_MARKER
    "Schema unavailable due to database error: could not connect to server"
  = true
  /\ schema_cache (open_session offline_world)
     = Some "Schema unavailable due to database error: could not connect to server"
  /\ truthy COUNT_QUESTION = true
  /\ generate_db_answer count_world COUNT_QUESTION
       "Schema unavailable due to database error: could not connect to server"
     = (Value "Sorry, I can't connect to the database to retrieve the schema. Error: Schema unavailable due to database error: could not connect to server",
        [])
  /\ transcript (run_turn (open_session offline_world)
                   (COUNT_QUESTION, count_world))
     = [GREETING; user_message COUNT_QUESTION;
        assistant_message "Sorry, I can't connect to the database to retrieve the schema. Error: Schema unavailable due to database error: could not connect to server"].
Proof.
  split; [reflexivity|]. split; [reflexivity|]. split; [reflexivity|].
  destruct (unavailable_schema_short_circuits count_world
              (open_session offline_world) COUNT_QUESTION
              "Schema unavailable due to database error: could not connect to server"
              eq_refl) as [A B].
  split; [exact A | exact (B eq_refl eq_refl)].
Defined.

(** Claim C4.  In a turn whose SQL-generation call fails, the reply is
    exactly "Error generating SQL: " followed by the failure's message; the
    only call made is that LLM call: no connection is opened and no
    statement is run. *)
Theorem sql_generation_failure_is_the_reply
    (w : world) (s : session) (prompt db_schema e : string) :
  contains SCHEMA_MARKER db_schema = false ->
  generate_content w 0 (sql_generation_prompt db_schema prompt) = LlmFailure e ->
  generate_db_answer w prompt db_schema
  = (Value ("Error generating SQL: " ++ e),
     [LlmCall MODEL (sql_generation_prompt db_schema prompt)])
  /\ db_events (snd (generate_db_answer w prompt db_schema)) = []
  /\ (schema_cache s = Some db_schema -> truthy prompt = true ->
      transcript (run_turn s (prompt, w))
      = (history s
         ++ [user_message prompt;
             assistant_message ("Error generating SQL: " ++ e)])%list).
Proof.
  intros Hm Hg.
  pose proof (generate_db_answer_sql_failure w prompt db_schema Hm e Hg) as E.
  split; [exact E|]. split; [now rewrite E|].
  intros Hc Hp.
  rewrite (run_turn_answered w prompt db_schema _ s Hc Hp (f_equal fst E)).
  reflexivity.
Qed.

Lemma sql_generation_failure_is_the_reply_witness :
  contains SCHEMA_MARKER SAMPLE_SCHEMA = false
  /\ generate_content offline_world 0
       (sql_generation_prompt SAMPLE_SCHEMA COUNT_QUESTION)
     = LlmFailure "connection reset"
  /\ schema_cache (open_session count_world) = Some SAMPLE_SCHEMA
  /\ truthy COUNT_QUESTION = true
  /\ fst (generate_db_answer offline_world COUNT_QUESTION SAMPLE_SCHEMA)
     = Value "Error generating SQL: connection reset"
  /\ db_events (snd (generate_db_answer offline_world COUNT_QUESTION
                       SAMPLE_SCHEMA)) = []
  /\ transcript (run_turn (open_session count_world)
                   (COUNT_QUESTION, offline_world))
     = [GREETING; user_message COUNT_QUESTION;
        assistant_message "Error generating SQL: connection reset"].
Proof.
  split; [reflexivity|]. split; [reflexivity|].
  split; [reflexivity|]. split; [reflexivity|].
  destruct (sql_generation_failure_is_the_reply offline_world
              (open_session count_world)
              COUNT_QUESTION SAMPLE_SCHEMA "connection reset"
              eq_refl eq_refl) as (A & B & C).
  split; [exact (f_equal fst A)|]. split; [exact B|].
  exact (C eq_refl eq_refl).
Defined.

(** Claim C7.  In the counting scenario (question "How many rows are in
    table orders?", SQL response [COUNT_SQL], a database answering with the
    single row count = 42) the prompt of the synthesis
    call holds the text 42. *)
Theorem count_reaches_synthesis_prompt (w : world) (db_schema : string) :
  contains SCHEMA_MARKER db_schema = false ->
  generate_content w 0 (sql_generation_prompt db_schema COUNT_QUESTION)
  = LlmText COUNT_SQL ->
  connect w = Connected ->
  execute w COUNT_SQL = Executed (Some ["count"]) [[VInt 42]] ->
  exists prompt,
    llm_prompts (snd (generate_db_answer w COUNT_QUESTION db_schema))
    = [sql_generation_prompt db_schema COUNT_QUESTION; prompt]
    /\ prompt = final_answer_prompt COUNT_QUESTION COUNT_SQL "[{'count': 42}]"
    /\ contains "42" prompt = true.
Proof.
  intros Hm Hg Hc Hx.
  rewrite (generate_db_answer_rows w COUNT_QUESTION db_schema Hm COUNT_SQL Hg
             ["count"] [[VInt 42]] Hc Hx).
  eexists. split; [reflexivity|]. split; reflexivity.
Qed.

Lemma count_reaches_synthesis_prompt_witness :
  contains SCHEMA_MARKER SAMPLE_SCHEMA = false
  /\ generate_content count_world 0
       (sql_generation_prompt SAMPLE_SCHEMA COUNT_QUESTION)
     = LlmText COUNT_SQL
  /\ connect count_world = Connected
  /\ execute count_world COUNT_SQL = Executed (Some ["count"]) [[VInt 42]]
  /\ exists prompt,
       llm_prompts (snd (generate_db_answer count_world COUNT_QUESTION
                           SAMPLE_SCHEMA))
       = [sql_generation_prompt SAMPLE_SCHEMA COUNT_QUESTION; prompt]
       /\ prompt
          = final_answer_prompt COUNT_QUESTION COUNT_SQL "[{'count': 42}]"
       /\ contains "42" prompt = true.
Proof.
  split; [reflexivity|]. split; [reflexivity|].
  split; [reflexivity|]. split; [reflexivity|].
  apply (count_reaches_synthesis_prompt count_world SAMPLE_SCHEMA);
    reflexivity.
Defined.

(** The result text sits in the synthesis prompt as it is, between the
    lines that announce it and the instructions that follow. *)
Lemma final_answer_prompt_embeds (question sql_query result_text : string) :
  exists before after,
    final_answer_prompt question sql_query result_text
    = before ++ result_text ++ after.
Proof.
  exists (nl ++ "    The user asked: " ++ dquote ++ question ++ dquote ++ nl
             ++ "    " ++ nl
             ++ "    The SQL query executed was: " ++ dquote ++ sql_query
             ++ dquote ++ nl
             ++ "    " ++ nl
             ++ "    The database result is:" ++ nl).
  eexists. unfold final_answer_prompt.
  rewrite !append_assoc. reflexivity.
Qed.

(** Claim C6, as the code has it.  In a turn whose generated SQL cannot be
    executed (the connection or the statement fails with a database
    error), the executor's text "Database Error: " followed by the error's
    message is embedded as it is in the synthesis prompt.  When the
    synthesis call fails too, the reply is the non-empty text
    "Error generating final answer: " followed by that failure's message;
    when it succeeds, the reply is the LLM's text, whatever it is. *)
Theorem failed_query_reaches_synthesis
    (w : world) (question db_schema text e : string) :
  contains SCHEMA_MARKER db_schema = false ->
  generate_content w 0 (sql_generation_prompt db_schema question)
  = LlmText text ->
  (connect w = ConnectError e
   \/ (connect w = Connected /\ execute w (clean_sql text) = ExecuteError e)) ->
  let error_text := "Database Error: " ++ e in
  let prompt := final_answer_prompt question (clean_sql text) error_text in
  llm_prompts (snd (generate_db_answer w question db_schema))
  = [sql_generation_prompt db_schema question; prompt]
  /\ (exists before after, prompt = before ++ error_text ++ after)
  /\ (forall m, generate_content w 1 prompt = LlmFailure m ->
      fst (generate_db_answer w question db_schema)
      = Value ("Error generating final answer: " ++ m)
      /\ "Error generating final answer: " ++ m <> EmptyString)
  /\ (forall answer, generate_content w 1 prompt = LlmText answer ->
      fst (generate_db_answer w question db_schema) = Value answer).
Proof.
  intros Hm Hg Hfail error_text prompt.
  assert (E : generate_db_answer w question db_schema
              = (synthesis_reply (generate_content w 1 prompt),
                 snd (generate_db_answer w question db_schema))
              /\ llm_prompts (snd (generate_db_answer w question db_schema))
                 = [sql_generation_prompt db_schema question; prompt]).
  { destruct Hfail as [Hc | [Hc Hx]].
    - rewrite (generate_db_answer_connect_error
                 w question db_schema Hm text Hg e Hc).
      split; reflexivity.
    - rewrite (generate_db_answer_execute_error
                 w question db_schema Hm text Hg e Hc Hx).
      split; reflexivity. }
  destruct E as [E1 E2].
  split; [exact E2|]. split.
  - apply final_answer_prompt_embeds.
  - split.
    + intros m Hf. rewrite E1, Hf. split; [reflexivity | discriminate].
    + intros answer Ha. rewrite E1, Ha. reflexivity.
Qed.

Lemma failed_query_reaches_synthesis_witness :
  contains SCHEMA_MARKER SAMPLE_SCHEMA = false
  /\ generate_content failing_world 0
       (sql_generation_prompt SAMPLE_SCHEMA MISSING_QUESTION)
     = LlmText MISSING_SQL
  /\ connect failing_world = Connected
  /\ execute failing_world (clean_sql MISSING_SQL) = ExecuteError MISSING_ERROR
  /\ llm_prompts (snd (generate_db_answer failing_world MISSING_QUESTION
                         SAMPLE_SCHEMA))
     = [sql_generation_prompt SAMPLE_SCHEMA MISSING_QUESTION;
        final_answer_prompt MISSING_QUESTION MISSING_SQL
          "Database Error: relation missing does not exist"]
  /\ fst (generate_db_answer failing_world MISSING_QUESTION SAMPLE_SCHEMA)
     = Value "Error generating final answer: 503 UNAVAILABLE".
Proof.
  split; [reflexivity|]. split; [reflexivity|].
  split; [reflexivity|]. split; [reflexivity|].
  destruct (failed_query_reaches_synthesis failing_world MISSING_QUESTION
              SAMPLE_SCHEMA MISSING_SQL MISSING_ERROR eq_refl eq_refl
              (or_intror (conj eq_refl eq_refl))) as (A & _ & C & _).
  split; [exact A|].
  exact (proj1 (C "503 UNAVAILABLE" eq_refl)).
Defined.

(** Claim C6 as stated fails: the statement fails to execute, the synthesis
    call succeeds with an empty text, and the reply is the empty string. *)
Lemma silent_synthesis_empty_reply :
  execute silent_world (clean_sql MISSING_SQL) = ExecuteError MISSING_ERROR
  /\ fst (generate_db_answer silent_world MISSING_QUESTION SAMPLE_SCHEMA)
     = Value EmptyString.
Proof. split; reflexivity. Qed.

(** Claim C10, at a statement that executes successfully without result
    set.  The database runs the INSERT without error and the pipeline makes
    the SQL-generation call only: no synthesis prompt is built, so no
    result text is embedded in one, and the result variable still holds the
    placeholder "No data found." when the [TypeError] of line 109 leaves
    the executor. *)
Theorem executed_insert_reaches_no_synthesis :
  connect insert_world = Connected
  /\ execute insert_world (clean_sql INSERT_SQL) = Executed None []
  /\ generate_db_answer insert_world "Add milk to the products." SAMPLE_SCHEMA
     = (Throws {| class := TypeError;
                  message := "'NoneType' object is not iterable" |},
        [LlmCall MODEL
           (sql_generation_prompt SAMPLE_SCHEMA "Add milk to the products.");
         DbConnect true; DbExecute INSERT_SQL; DbClose])
  /\ llm_prompts (snd (generate_db_answer insert_world
                         "Add milk to the products." SAMPLE_SCHEMA))
     = [sql_generation_prompt SAMPLE_SCHEMA "Add milk to the products."]
  /\ query_result (snd (execute_query insert_world INSERT_SQL initial_state))
     = "No data found.".
Proof. repeat split. Qed.

(** Claim C9.  The schema introspector and the query executor each open
    at most one connection per invocation, and every connection they open
    is closed by the time the stage ends, whether it ends normally or by an
    exception; the same holds of a whole pipeline call. *)
Theorem connections_always_released
    (w : world) (question db_schema sql_query : string) (st : state) :
  (all_released (snd (get_db_schema w))
   /\ (opened (snd (get_db_schema w)) <= 1)%nat)
  /\ (exists tr,
        trace (snd (execute_query w sql_query st)) = (trace st ++ tr)%list
        /\ all_released tr /\ (opened tr <= 1)%nat)
  /\ (all_released (snd (generate_db_answer w question db_schema))
      /\ (opened (snd (generate_db_answer w question db_schema)) <= 1)%nat).
Proof.
  split; [|split].
  - rewrite get_db_schema_cases.
    destruct (connect w); [destruct (catalog w)|];
      split; cbn; solve [reflexivity | lia].
  - rewrite execute_query_cases.
    destruct (connect w);
      [destruct (execute w sql_query) as [e|[cols|] rows|cols e];
       [| | |destruct (isinstance_psycopg2_Error e)]|];
      eexists; (split; [reflexivity|]); split; cbn; solve [reflexivity | lia].
  - pipeline_cases w question db_schema;
      split; cbn; solve [reflexivity | lia].
Qed.

(** A run of the executor whose body raises: the connection is closed
    before the exception leaves the stage. *)
Example connection_released_when_body_raises :
  execute_query insert_world INSERT_SQL initial_state
  = (Raised {| class := TypeError;
               message := "'NoneType' object is not iterable" |},
     {| conn := Some Connection; query_result := "No data found.";
        trace := [DbConnect true; DbExecute INSERT_SQL; DbClose] |}).
Proof. reflexivity. Qed.

(** Claim C2, at a statement without result set.  The database runs the
    INSERT without error, [cursor.description] is [None], and the
    [TypeError] raised by iterating it is not a [psycopg2.Error]: it leaves
    the executor and the pipeline call instead of becoming an error text. *)
Theorem executor_lets_type_error_escape :
  connect insert_world = Connected
  /\ execute insert_world INSERT_SQL = Executed None []
  /\ fst (execute_query insert_world INSERT_SQL initial_state)
     = Raised {| class := TypeError;
                 message := "'NoneType' object is not iterable" |}
  /\ fst (generate_db_answer insert_world "Add milk to the products."
            SAMPLE_SCHEMA)
     = Throws {| class := TypeError;
                 message := "'NoneType' object is not iterable" |}.
Proof. repeat split. Qed.

(** A [psycopg2.Error], from the connection or from the statement, ends
    the executor normally with the text "Database Error: ..." in the result
    variable. *)
Lemma execute_query_absorbs_database_errors
    (w : world) (sql_query e : string) (st : state) :
  connect w = ConnectError e
  \/ (connect w = Connected /\ execute w sql_query = ExecuteError e) ->
  fst (execute_query w sql_query st) = Normal tt
  /\ query_result (snd (execute_query w sql_query st))
     = "Database Error: " ++ e.
Proof.
  rewrite execute_query_cases.
  intros [-> | [-> ->]]; split; reflexivity.
Qed.

(** Claim C1, at a session whose only turn has the LLM generate a
    statement without result set.  The question is appended, the pipeline
    call raises, and the script run ends before the reply is appended:
    after one turn the transcript has two messages, not 1 + 2 * 1. *)
Theorem transcript_after_escaped_turn :
  transcript (run_turns (open_session count_world)
                [("Add milk to the products.", insert_world)])
  = [GREETING; user_message "Add milk to the products."]
  /\ List.length
       (transcript (run_turns (open_session count_world)
                      [("Add milk to the products.", insert_world)]))
     <> (1 + 2 * 1)%nat.
Proof. split; [reflexivity | discriminate]. Qed.

(** With turns whose pipeline calls all return, the transcript after N
    turns has 1 + 2N messages. *)
Lemma transcript_length (w : world) (turns : list turn) :
  Forall answered turns ->
  List.length (history (run_turns (open_session w) turns))
  = (1 + 2 * List.length turns)%nat.
Proof.
  intros H. rewrite (answered_turns_length turns _ H).
  now rewrite open_session_history.
Qed.

(* ================================================================== *)
(** * The schema text *)
(* ================================================================== *)

Section SchemaText.

Local Open Scope list_scope.

Implicit Types (rows : list (string * string * string)) (t : string).

Lemma distinct_sound (l : list string) (x : string) :
  In x (distinct l) <-> In x l.
Proof.
  induction l as [|a l IH]; simpl; [tauto|].
  rewrite filter_In, IH.
  destruct (String.eqb_spec a x) as [->|Hne]; simpl; intuition congruence.
Qed.

Lemma distinct_NoDup (l : list string) : NoDup (distinct l).
Proof.
  induction l as [|a l IH]; simpl; constructor.
  - rewrite filter_In. intros [_ H]. now rewrite String.eqb_refl in H.
  - now apply NoDup_filter.
Qed.

Lemma filter_absent (x : string) (l : list string) :
  ~ In x l -> filter (fun y => negb (String.eqb x y)) l = l.
Proof.
  induction l as [|a l IH]; simpl; intros H; [reflexivity|].
  destruct (String.eqb_spec x a) as [->|Hne]; simpl.
  - exfalso. apply H. now left.
  - rewrite IH; [reflexivity|]. intros Hin. apply H. now right.
Qed.

(** A new last name is kept if and only if it did not occur before. *)
Lemma distinct_snoc (l : list string) (x : string) :
  distinct (l ++ [x])
  = if existsb (String.eqb x) l then distinct l else (distinct l ++ [x])%list.
Proof.
  induction l as [|a l IH]; simpl; [reflexivity|].
  rewrite IH.
  destruct (String.eqb_spec x a) as [->|Hne]; simpl.
  - destruct (existsb (String.eqb a) l); [reflexivity|].
    rewrite filter_app. simpl. rewrite String.eqb_refl. simpl.
    now rewrite app_nil_r.
  - destruct (existsb (String.eqb x) l); [reflexivity|].
    rewrite filter_app. simpl.
    destruct (String.eqb_spec a x) as [->|_]; [congruence|]. reflexivity.
Qed.

Lemma columns_of_snoc t rows (r : string * string * string) :
  columns_of t (rows ++ [r])
  = (columns_of t rows
     ++ if String.eqb t (table_of r) then [column_entry r] else [])%list.
Proof.
  unfold columns_of. rewrite filter_app, map_app. simpl.
  destruct (String.eqb t (table_of r)); reflexivity.
Qed.

Lemma columns_of_absent t rows :
  existsb (String.eqb t) (map table_of rows) = false -> columns_of t rows = [].
Proof.
  unfold columns_of. induction rows as [|r rows IH]; simpl; [reflexivity|].
  intros H. apply orb_false_iff in H as [H1 H2].
  rewrite H1. now apply IH.
Qed.

Lemma dict_mem_blocks t (f : string -> list string) (ts : list string) :
  dict_mem t (map (fun x => (x, f x)) ts) = existsb (String.eqb t) ts.
Proof.
  induction ts as [|a ts IH]; simpl; [reflexivity|]. now rewrite IH.
Qed.

Lemma existsb_distinct t (l : list string) :
  existsb (String.eqb t) (distinct l) = existsb (String.eqb t) l.
Proof.
  apply eq_true_iff_eq. rewrite !existsb_exists.
  split; intros (x & Hin & Hx); exists x; split; auto;
    now apply distinct_sound.
Qed.

(** [schema[table].append(entry)] changes the block of [table] only. *)
Lemma schema_append_blocks t (entry : string) (f : string -> list string)
    (ts : list string) :
  NoDup ts ->
  schema_append t entry (map (fun x => (x, f x)) ts)
  = map (fun x => (x, (f x ++ if String.eqb x t then [entry] else [])%list)) ts.
Proof.
  induction ts as [|a ts IH]; intros Hnd; simpl; [reflexivity|].
  inversion Hnd as [|? ? Hnotin Hnd']; subst.
  destruct (String.eqb_spec t a) as [->|Hne].
  - rewrite String.eqb_refl. f_equal.
    apply map_ext_in. intros x Hx.
    destruct (String.eqb_spec x a) as [->|_]; [contradiction|].
    now rewrite app_nil_r.
  - destruct (String.eqb_spec a t) as [->|_]; [congruence|].
    rewrite app_nil_r. f_equal. now apply IH.
Qed.

Lemma dict_set_new {V} t (v : V) (d : dict V) :
  dict_mem t d = false -> dict_set t v d = (d ++ [(t, v)])%list.
Proof.
  induction d as [|[k x] d IH]; simpl; [reflexivity|].
  intros H. apply orb_false_iff in H as [H1 H2].
  rewrite H1. now rewrite IH.
Qed.

Lemma schema_append_last t (entry : string) (d : dict (list string))
    (columns : list string) :
  dict_mem t d = false ->
  schema_append t entry (d ++ [(t, columns)])
  = (d ++ [(t, (columns ++ [entry])%list)])%list.
Proof.
  induction d as [|[k x] d IH]; simpl.
  - now rewrite String.eqb_refl.
  - intros H. apply orb_false_iff in H as [H1 H2].
    rewrite H1. now rewrite IH.
Qed.

(** One more catalog row: what the loop body does to the blocks. *)
Lemma schema_add_row_blocks rows (r : string * string * string) :
  schema_add_row (schema_blocks rows) r = schema_blocks (rows ++ [r]).
Proof.
  destruct r as [[table column] data_type].
  unfold schema_add_row, schema_blocks.
  rewrite map_app.
  change (map table_of [(table, column, data_type)]) with [table].
  rewrite distinct_snoc, dict_mem_blocks, existsb_distinct.
  destruct (existsb (String.eqb table) (map table_of rows)) eqn:E;
    cbn [negb].
  - rewrite (schema_append_blocks _ _ _ _ (distinct_NoDup _)).
    apply map_ext. intros x. now rewrite columns_of_snoc.
  - assert (Hnew : dict_mem table
                     (map (fun t => (t, columns_of t rows))
                        (distinct (map table_of rows))) = false)
      by now rewrite dict_mem_blocks, existsb_distinct.
    rewrite (dict_set_new _ _ _ Hnew), (schema_append_last _ _ _ _ Hnew).
    rewrite map_app. cbn [map].
    rewrite (columns_of_snoc table rows).
    change (table_of (table, column, data_type)) with table.
    rewrite String.eqb_refl, (columns_of_absent _ _ E).
    f_equal. apply map_ext_in. intros x Hx.
    rewrite columns_of_snoc.
    change (table_of (table, column, data_type)) with table.
    destruct (String.eqb_spec x table) as [->|_]; [|now rewrite app_nil_r].
    apply (proj1 (distinct_sound _ _)) in Hx.
    assert (existsb (String.eqb table) (map table_of rows) = true)
      by (apply existsb_exists; exists table; split;
          [assumption | apply String.eqb_refl]).
    congruence.
Qed.

(** The dictionary built by the loop is the list of blocks. *)
Lemma build_schema_blocks rows : build_schema rows = schema_blocks rows.
Proof.
  induction rows as [|r rows IH] using rev_ind; [reflexivity|].
  unfold build_schema in *. rewrite fold_left_app. simpl.
  rewrite IH. apply schema_add_row_blocks.
Qed.

(** ** Rows of a table that are adjacent *)

Lemma filter_filter_same t (l : list string) :
  filter (fun y => negb (String.eqb t y))
    (filter (fun y => negb (String.eqb t y)) l)
  = filter (fun y => negb (String.eqb t y)) l.
Proof.
  induction l as [|a l IH]; simpl; [reflexivity|].
  destruct (negb (String.eqb t a)) eqn:E; simpl; [|exact IH].
  now rewrite E, IH.
Qed.

Lemma columns_of_cons t (r : string * string * string) rows :
  columns_of t (r :: rows)
  = (if String.eqb t (table_of r) then [column_entry r] else [])
    ++ columns_of t rows.
Proof.
  unfold columns_of. simpl.
  destruct (String.eqb t (table_of r)); reflexivity.
Qed.

Lemma flat_columns_cons_absent (r : string * string * string) rows
    (ts : list string) :
  ~ In (table_of r) ts ->
  flat_map (fun t => columns_of t (r :: rows)) ts
  = flat_map (fun t => columns_of t rows) ts.
Proof.
  induction ts as [|a ts IH]; simpl; intros H; [reflexivity|].
  rewrite columns_of_cons.
  destruct (String.eqb_spec a (table_of r)) as [->|_].
  - exfalso. apply H. now left.
  - simpl. rewrite IH; [reflexivity|]. intros Hin. apply H. now right.
Qed.

Lemma not_in_filter_out t (l : list string) :
  ~ In t (filter (fun y => negb (String.eqb t y)) l).
Proof. rewrite filter_In. intros [_ H]. now rewrite String.eqb_refl in H. Qed.

(** Read block after block, the columns of a grouped catalog result come
    in the order of its rows. *)
Lemma grouped_blocks_in_row_order rows :
  grouped rows = true ->
  flat_map snd (schema_blocks rows) = map column_entry rows.
Proof.
  unfold schema_blocks. rewrite flat_map_concat_map, map_map. cbn [snd].
  rewrite <- flat_map_concat_map.
  induction rows as [|r rows IH]; [reflexivity|].
  intros G. cbn [map distinct flat_map].
  rewrite columns_of_cons, String.eqb_refl.
  rewrite (flat_columns_cons_absent _ _ _ (not_in_filter_out _ _)).
  cbn [app]. f_equal.
  destruct rows as [|r' rows']; [reflexivity|].
  cbn [grouped] in G. apply andb_true_iff in G as [G1 G2].
  specialize (IH G2).
  apply orb_true_iff in G1 as [Gnext | Gabsent].
  - apply String.eqb_eq in Gnext.
    rewrite <- IH. cbn [map distinct flat_map filter].
    rewrite <- Gnext, String.eqb_refl. cbn [negb].
    now rewrite filter_filter_same.
  - apply negb_true_iff in Gabsent.
    rewrite (columns_of_absent _ _ Gabsent). cbn [app].
    rewrite filter_absent; [exact IH|].
    rewrite distinct_sound. intros Hin.
    assert (existsb (String.eqb (table_of r)) (map table_of (r' :: rows'))
            = true)
      by (apply existsb_exists; eexists; split;
          [exact Hin | apply String.eqb_refl]).
    congruence.
Qed.

End SchemaText.

(** Claim C8.  The introspector runs the catalog query, which asks for the
    rows ordered by table name and column position, and for every catalog
    result returns one block per table, the blocks joined by a blank line
    and each of the form "Table: <name>" newline "Columns: <col> (<type>),
    ...".  The tables come in the order in which the catalog result first
    names them, the columns of a table in the order of its rows; when the
    rows of each table are adjacent, as in the ordered result, the columns
    read block after block are the rows in their order. *)
Theorem schema_text_blocks
    (w : world) (rows : list (string * string * string)) :
  contains "ORDER BY table_name, ordinal_position" CATALOG_QUERY = true
  /\ build_schema rows = schema_blocks rows
  /\ render_schema (build_schema rows)
     = join (nl ++ nl)
         (map (fun b => "Table: " ++ fst b ++ nl
                        ++ "Columns: " ++ join ", " (snd b))
            (schema_blocks rows))
  /\ (connect w = Connected -> catalog w = CatalogRows rows ->
      get_db_schema w
      = (Value (render_schema (schema_blocks rows)),
         [DbConnect true; DbExecute CATALOG_QUERY; DbClose]))
  /\ (grouped rows = true ->
      flat_map snd (schema_blocks rows) = map column_entry rows).
Proof.
  split; [reflexivity|]. split; [apply build_schema_blocks|]. split.
  - rewrite build_schema_blocks. unfold render_schema. f_equal.
    apply map_ext. now intros [t c].
  - split.
    + intros Hc Hr.
      now rewrite get_db_schema_cases, Hc, Hr, build_schema_blocks.
    + apply grouped_blocks_in_row_order.
Qed.

Lemma schema_text_blocks_witness :
  connect count_world = Connected
  /\ catalog count_world
     = CatalogRows [("orders", "id", "integer");
                    ("orders", "total", "numeric");
                    ("products", "name", "text")]
  /\ grouped [("orders", "id", "integer"); ("orders", "total", "numeric");
              ("products", "name", "text")] = true
  /\ get_db_schema count_world
     = (Value SAMPLE_SCHEMA, [DbConnect true; DbExecute CATALOG_QUERY; DbClose])
  /\ flat_map snd
       (schema_blocks [("orders", "id", "integer");
                       ("orders", "total", "numeric");
                       ("products", "name", "text")])
     = ["id (integer)"; "total (numeric)"; "name (text)"].
Proof.
  split; [reflexivity|]. split; [reflexivity|]. split; [reflexivity|].
  destruct (schema_text_blocks count_world
              [("orders", "id", "integer"); ("orders", "total", "numeric");
               ("products", "name", "text")]) as (_ & _ & _ & A & B).
  split; [exact (A eq_refl eq_refl) | exact (B eq_refl)].
Defined.

(** Rows of a table that are not adjacent still end in one block. *)
Example schema_blocks_merge_scattered_rows :
  build_schema [("b", "x", "text"); ("a", "y", "text"); ("b", "z", "text")]
  = [("b", ["x (text)"; "z (text)"]); ("a", ["y (text)"])].
Proof. reflexivity. Qed.

(* ================================================================== *)
(** * Further properties of the stages and of the pipeline *)
(* ================================================================== *)

(** Property X1.  The schema introspector never raises: it returns a text
    whatever the database does, and when the connection or the catalog
    query fails that text is "Schema unavailable due to database error: "
    followed by the error's message, which holds the marker the pipeline
    tests for. *)
Theorem get_db_schema_absorbs_failures (w : world) :
  (exists text, fst (get_db_schema w) = Value text)
  /\ (forall e,
        connect w = ConnectError e
        \/ (connect w = Connected /\ catalog w = CatalogError e) ->
        fst (get_db_schema w) = Value (unavailable_schema e)
        /\ contains SCHEMA_MARKER (unavailable_schema e) = true).
Proof.
  rewrite get_db_schema_cases. split.
  - destruct (connect w); [destruct (catalog w)|]; eexists; reflexivity.
  - intros e [-> | [-> ->]]; split; reflexivity.
Qed.

Lemma get_db_schema_absorbs_failures_witness :
  connect offline_world = ConnectError "could not connect to server"
  /\ fst (get_db_schema offline_world)
     = Value "Schema unavailable due to database error: could not connect to server"
  /\ contains SCHEMA_MARKER
       (unavailable_schema "could not connect to server") = true.
Proof.
  split; [reflexivity|].
  exact (proj2 (get_db_schema_absorbs_failures offline_world)
           "could not connect to server" (or_introl eq_refl)).
Defined.

(** Property X2.  A call of the pipeline raises only out of the query
    executor.  When it raises, the schema text was usable, the LLM had
    answered the SQL request, the connection was opened, the statement
    sent and the connection closed again, no synthesis call was made, and
    the exception is not a [psycopg2.Error].  A statement without result
    set always ends so, with the [TypeError] of line 109, and so does a row
    fetch that raises an exception other than a [psycopg2.Error].  The call
    returns [None] exactly when the synthesis call was made and its
    response has no text. *)
Theorem pipeline_raises_only_out_of_the_executor
    (w : world) (question db_schema : string) :
  (forall e,
     fst (generate_db_answer w question db_schema) = Throws e ->
     isinstance_psycopg2_Error e = false
     /\ contains SCHEMA_MARKER db_schema = false
     /\ exists text,
          generate_content w 0 (sql_generation_prompt db_schema question)
          = LlmText text
          /\ connect w = Connected
          /\ snd (generate_db_answer w question db_schema)
             = [LlmCall MODEL (sql_generation_prompt db_schema question);
                DbConnect true; DbExecute (clean_sql text); DbClose])
  /\ (forall text,
        contains SCHEMA_MARKER db_schema = false ->
        generate_content w 0 (sql_generation_prompt db_schema question)
        = LlmText text ->
        connect w = Connected ->
        (forall rows,
           execute w (clean_sql text) = Executed None rows ->
           fst (generate_db_answer w question db_schema)
           = Throws {| class := TypeError;
                       message := "'NoneType' object is not iterable" |})
        /\ (forall cols e,
              execute w (clean_sql text) = FetchRaises cols e ->
              isinstance_psycopg2_Error e = false ->
              fst (generate_db_answer w question db_schema) = Throws e))
  /\ (fst (generate_db_answer w question db_schema) = NoneValue
      <-> exists p1 p2,
            llm_prompts (snd (generate_db_answer w question db_schema))
            = [p1; p2]
            /\ generate_content w 1 p2 = LlmNoText).
Proof.
  split; [|split].
  - intros e.
    pipeline_cases w question db_schema; cbn [fst snd]; intros H;
      try discriminate H;
      try (destruct (generate_content w 1 _); discriminate H);
      injection H as <-;
      (split; [first [reflexivity | assumption]|]);
      (split; [reflexivity|]); exists text; repeat split.
  - intros text Hm Hg Hc. split.
    + intros rows Hx.
      now rewrite (generate_db_answer_no_result_set
                     w question db_schema Hm text Hg rows Hc Hx).
    + intros cols e Hx Hk.
      now rewrite (generate_db_answer_fetch_raises
                     w question db_schema Hm text Hg cols e Hc Hx Hk).
  - pipeline_cases w question db_schema;
      cbn [fst snd llm_prompts flat_map app]; split;
      try discriminate;
      try (intros (p1 & p2 & H & _); discriminate H);
      try (intros H; do 2 eexists; split; [reflexivity|];
           destruct (generate_content w 1 _); try discriminate H; reflexivity);
      try (intros (p1 & p2 & H & H2); injection H as _ H3; subst p2;
           exact (f_equal synthesis_reply H2)).
Qed.

Lemma pipeline_raises_only_out_of_the_executor_witness :
  isinstance_psycopg2_Error FAR_ERROR = false
  /\ fst (generate_db_answer far_date_world FAR_QUESTION SAMPLE_SCHEMA)
     = Throws FAR_ERROR
  /\ fst (generate_db_answer insert_world "Add milk to the products."
            SAMPLE_SCHEMA)
     = Throws {| class := TypeError;
                 message := "'NoneType' object is not iterable" |}
  /\ fst (generate_db_answer mute_world COUNT_QUESTION SAMPLE_SCHEMA)
     = NoneValue.
Proof.
  destruct (pipeline_raises_only_out_of_the_executor
              far_date_world FAR_QUESTION SAMPLE_SCHEMA) as (A & B & _).
  split; [exact (proj1 (A FAR_ERROR eq_refl))|].
  split; [exact (proj2 (B FAR_SQL eq_refl eq_refl eq_refl)
                   ["expires"] FAR_ERROR eq_refl eq_refl)|].
  split.
  - exact (proj1 (proj1 (proj2 (pipeline_raises_only_out_of_the_executor
                                  insert_world "Add milk to the products."
                                  SAMPLE_SCHEMA))
                    INSERT_SQL eq_refl eq_refl eq_refl) [] eq_refl).
  - apply (proj2 (proj2 (pipeline_raises_only_out_of_the_executor
                           mute_world COUNT_QUESTION SAMPLE_SCHEMA))).
    do 2 eexists. split; reflexivity.
Defined.

(** Property X3.  Whatever the services do, one call of the pipeline
    asks the LLM at most twice, sends at most one statement to the
    database, and never calls the LLM while a database connection is
    open. *)
Theorem pipeline_call_discipline (w : world) (question db_schema : string) :
  (List.length (llm_prompts (snd (generate_db_answer w question db_schema)))
   <= 2)%nat
  /\ (List.length (executed (snd (generate_db_answer w question db_schema)))
      <= 1)%nat
  /\ llm_only_while_closed false
       (snd (generate_db_answer w question db_schema)) = true.
Proof.
  pipeline_cases w question db_schema;
    cbn [snd llm_prompts executed flat_map app List.length
         llm_only_while_closed negb andb];
    repeat split; try reflexivity; lia.
Qed.

(** Property X4.  The statement sent to the database is the LLM's text
    after [clean_sql] and nothing else: no statement is executed that the
    LLM did not write, and whatever it wrote is executed once the
    connection opens, without any check of what kind of statement it is. *)
Theorem executed_statement_is_the_cleaned_response
    (w : world) (question db_schema : string) :
  (forall sql,
     In sql (executed (snd (generate_db_answer w question db_schema))) ->
     exists text,
       generate_content w 0 (sql_generation_prompt db_schema question)
       = LlmText text
       /\ sql = clean_sql text)
  /\ (forall text,
        contains SCHEMA_MARKER db_schema = false ->
        generate_content w 0 (sql_generation_prompt db_schema question)
        = LlmText text ->
        connect w = Connected ->
        executed (snd (generate_db_answer w question db_schema))
        = [clean_sql text]).
Proof.
  split.
  - intros sql.
    pipeline_cases w question db_schema;
      cbn [snd executed flat_map app In]; intros H;
      try contradiction;
      destruct H as [<- | []]; now eexists.
  - intros text Hm Hg Hc.
    destruct (execute w (clean_sql text)) as [e|[cols|] rows|cols e] eqn:Hx.
    + now rewrite (generate_db_answer_execute_error
                     w question db_schema Hm text Hg e Hc Hx).
    + now rewrite (generate_db_answer_rows
                     w question db_schema Hm text Hg cols rows Hc Hx).
    + now rewrite (generate_db_answer_no_result_set
                     w question db_schema Hm text Hg rows Hc Hx).
    + destruct (isinstance_psycopg2_Error e) eqn:Hk.
      * now rewrite (generate_db_answer_fetch_error
                       w question db_schema Hm text Hg cols e Hc Hx Hk).
      * now rewrite (generate_db_answer_fetch_raises
                       w question db_schema Hm text Hg cols e Hc Hx Hk).
Qed.

Lemma executed_statement_is_the_cleaned_response_witness :
  In COUNT_SQL
    (executed (snd (generate_db_answer count_world COUNT_QUESTION
                      SAMPLE_SCHEMA)))
  /\ (exists text,
        generate_content count_world 0
          (sql_generation_prompt SAMPLE_SCHEMA COUNT_QUESTION)
        = LlmText text
        /\ COUNT_SQL = clean_sql text)
  /\ executed (snd (generate_db_answer insert_world
                      "Add milk to the products." SAMPLE_SCHEMA))
     = [INSERT_SQL].
Proof.
  split; [left; reflexivity|]. split.
  - exact (proj1 (executed_statement_is_the_cleaned_response count_world
                    COUNT_QUESTION SAMPLE_SCHEMA)
             COUNT_SQL (or_introl eq_refl)).
  - exact (proj2 (executed_statement_is_the_cleaned_response insert_world
                    "Add milk to the products." SAMPLE_SCHEMA)
             INSERT_SQL eq_refl eq_refl eq_refl).
Defined.

(** The text of a list of rows opens with a bracket. *)
Lemma str_of_list_head (l : list (dict value)) :
  exists rest, str_of_list l = String "[" rest.
Proof. unfold str_of_list. now eexists. Qed.

Lemma join_nonempty_dicts (d : dict value) (l : list (dict value)) :
  exists rest, join ", " (map str_of_dict (d :: l)) = String "{" rest.
Proof.
  cbn [map join]. destruct (map str_of_dict l); unfold str_of_dict;
    now eexists.
Qed.

(** Only the empty list of rows is written [[]]. *)
Lemma str_of_list_empty (l : list (dict value)) :
  str_of_list l = "[]" -> l = [].
Proof.
  destruct l as [|d l]; [reflexivity|]. unfold str_of_list.
  destruct (join_nonempty_dicts d l) as [rest ->]. discriminate.
Qed.

Lemma result_rows_empty (cols : list string) (rows : list (list value)) :
  result_rows cols rows = [] -> rows = [].
Proof. destruct rows; [reflexivity | discriminate]. Qed.

(** Property X5.  When the executor ends normally its result text tells
    what happened: the text starts with "Database Error: " exactly when
    the connection, the statement or the fetch of the rows failed with a
    database error, and it is [[]] exactly when the statement ran and
    returned no row. *)
Theorem result_text_tells_the_outcome
    (w : world) (sql_query : string) (st st' : state) :
  execute_query w sql_query st = (Normal tt, st') ->
  (startswith "Database Error: " (query_result st') = true
   <-> exists e,
         connect w = ConnectError e
         \/ (connect w = Connected /\ execute w sql_query = ExecuteError e)
         \/ (connect w = Connected
             /\ exists cols x,
                  execute w sql_query = FetchRaises cols x
                  /\ isinstance_psycopg2_Error x = true
                  /\ message x = e))
  /\ (query_result st' = "[]"
      <-> exists cols,
            connect w = Connected
            /\ execute w sql_query = Executed (Some cols) []).
Proof.
  rewrite execute_query_cases.
  destruct (connect w) as [|e] eqn:Hc;
    [destruct (execute w sql_query) as [e|[cols|] rows|cols x] eqn:Hx;
     [| | |destruct (isinstance_psycopg2_Error x) eqn:Hk]|];
    intros H; inversion H; subst; clear H; cbn [query_result].
  - split; split.
    + intros _. exists e. right. left. now split.
    + reflexivity.
    + discriminate.
    + intros (cols & _ & H). discriminate H.
  - split; split.
    + destruct (str_of_list_head (result_rows cols rows)) as [rest ->].
      discriminate.
    + intros (e & [H | [[_ H] | [_ (c & x & H & _)]]]); discriminate H.
    + intros H. apply str_of_list_empty, result_rows_empty in H. subst.
      now exists cols.
    + intros (cols' & _ & H). injection H as -> ->. reflexivity.
  - split; split.
    + intros _. exists (message x). right. right.
      split; [reflexivity|]. exists cols, x. now repeat split.
    + reflexivity.
    + discriminate.
    + intros (cols' & _ & H). discriminate H.
  - split; split.
    + intros _. exists e. now left.
    + reflexivity.
    + discriminate.
    + intros (cols & H & _). discriminate H.
Qed.

Lemma result_text_tells_the_outcome_witness :
  execute_query empty_world EMPTY_SQL initial_state
  = (Normal tt,
     {| conn := Some Connection; query_result := "[]";
        trace := [DbConnect true; DbExecute EMPTY_SQL; DbClose] |})
  /\ (exists cols,
        connect empty_world = Connected
        /\ execute empty_world EMPTY_SQL = Executed (Some cols) []).
Proof.
  split; [reflexivity|].
  apply (result_text_tells_the_outcome empty_world EMPTY_SQL initial_state
           {| conn := Some Connection; query_result := "[]";
              trace := [DbConnect true; DbExecute EMPTY_SQL; DbClose] |}
           eq_refl).
  reflexivity.
Defined.

(** Property X6.  Every reply the pipeline words itself is non-empty: an
    empty reply can only be the text of a successful synthesis call. *)
Theorem empty_reply_only_from_llm (w : world) (question db_schema : string) :
  fst (generate_db_answer w question db_schema) = Value EmptyString ->
  exists p1 p2,
    llm_prompts (snd (generate_db_answer w question db_schema)) = [p1; p2]
    /\ generate_content w 1 p2 = LlmText EmptyString.
Proof.
  pipeline_cases w question db_schema; cbn [fst snd llm_prompts flat_map app];
    intros H; try discriminate H;
    do 2 eexists; (split; [reflexivity|]);
    match goal with
    | |- generate_content w 1 ?p = _ =>
        destruct (generate_content w 1 p) as [answer| |m];
        cbn [synthesis_reply] in H; [|discriminate H|discriminate H];
        now injection H as ->
    end.
Qed.

Lemma empty_reply_only_from_llm_witness :
  fst (generate_db_answer silent_world MISSING_QUESTION SAMPLE_SCHEMA)
  = Value EmptyString
  /\ exists p1 p2,
       llm_prompts (snd (generate_db_answer silent_world MISSING_QUESTION
                           SAMPLE_SCHEMA)) = [p1; p2]
       /\ generate_content silent_world 1 p2 = LlmText EmptyString.
Proof.
  split; [reflexivity|].
  apply (empty_reply_only_from_llm silent_world MISSING_QUESTION
           SAMPLE_SCHEMA).
  reflexivity.
Defined.

(* ================================================================== *)
(** * What [clean_sql] leaves *)
(* ================================================================== *)

Section CleanSqlResult.

Lemma startswith_cons (a b : ascii) (p s : string) :
  startswith (String a p) (String b s) = Ascii.eqb a b && startswith p s.
Proof. reflexivity. Qed.

Lemma replace_from_cons (old new : string) (c : ascii) (s : string) :
  replace_from old new 0 (String c s)
  = if startswith old (String c s)
    then new ++ replace_from old new (String.length old - 1) s
    else String c (replace_from old new 0 s).
Proof. reflexivity. Qed.

(** Deleting fences cannot bring a backtick to the front that was not
    there. *)
Lemma replace_fence_keeps_front (s : string) :
  startswith "`" (replace_from FENCE EmptyString 0 s) = true ->
  startswith "`" s = true.
Proof.
  destruct s as [|c s]; [discriminate|].
  rewrite replace_from_cons.
  destruct (startswith FENCE (String c s)) eqn:E.
  - intros _. unfold FENCE in E. rewrite startswith_cons in E.
    apply andb_true_iff in E as [E _].
    rewrite startswith_cons, E. reflexivity.
  - rewrite !startswith_cons. tauto.
Qed.

(** After the deletion no fence is left, wherever the scan resumes. *)
Lemma replace_fence_leaves_none (s : string) (skip : nat) :
  contains FENCE (replace_from FENCE EmptyString skip s) = false.
Proof.
  revert skip. induction s as [|c s IH]; intros skip; [reflexivity|].
  destruct skip as [|k]; [|exact (IH k)].
  rewrite replace_from_cons.
  destruct (startswith FENCE (String c s)) eqn:E; [exact (IH _)|].
  cbn [contains]. rewrite (IH 0), orb_false_r.
  destruct (startswith FENCE
              (String c (replace_from FENCE EmptyString 0 s))) eqn:F;
    [|reflexivity].
  exfalso. unfold FENCE at 1 in E. unfold FENCE at 1 in F.
  rewrite startswith_cons in E, F.
  apply andb_true_iff in F as [Fc F]. rewrite Fc in E. cbn [andb] in E.
  (* [s] opens with two backticks, which [E] excludes *)
  destruct s as [|c1 s]; [discriminate F|].
  rewrite startswith_cons in E.
  rewrite replace_from_cons in F.
  destruct (startswith FENCE (String c1 s)) eqn:G.
  - unfold FENCE in G. rewrite startswith_cons in G.
    apply andb_true_iff in G as [G1 G2]. rewrite G1 in E. cbn [andb] in E.
    destruct s as [|c2 s]; [discriminate G2|].
    rewrite startswith_cons in G2, E.
    apply andb_true_iff in G2 as [G2 _]. rewrite G2 in E. discriminate E.
  - rewrite startswith_cons in F.
    apply andb_true_iff in F as [F1 F2]. rewrite F1 in E. cbn [andb] in E.
    pose proof (replace_fence_keeps_front s F2) as H.
    destruct s as [|c2 s]; [discriminate H|].
    rewrite startswith_cons in H, E.
    apply andb_true_iff in H as [H _]. rewrite H in E. discriminate E.
Qed.

Lemma replace_fence_result (s : string) :
  contains FENCE (replace FENCE EmptyString s) = false.
Proof. exact (replace_fence_leaves_none s 0). Qed.

End CleanSqlResult.

Lemma clean_sql_trimmed (text : string) :
  strip (clean_sql text) = clean_sql text.
Proof. rewrite clean_sql_eq. apply strip_idempotent. Qed.

(** The catalog query starts with a line break, a cleaned statement with
    none: the two are never the same text. *)
Lemma clean_sql_not_catalog_query (text : string) :
  clean_sql text <> CATALOG_QUERY.
Proof.
  intros H. pose proof (clean_sql_trimmed text) as T. rewrite H in T.
  vm_compute in T. discriminate T.
Qed.

(** Property X7.  Whatever the LLM answers, the statement handed to the
    executor holds no triple backtick, has no whitespace at either end,
    and cleaning it again changes nothing. *)
Theorem clean_sql_result_is_clean (text : string) :
  contains FENCE (clean_sql text) = false
  /\ strip (clean_sql text) = clean_sql text
  /\ clean_sql (clean_sql text) = clean_sql text.
Proof.
  assert (Hf : contains FENCE (clean_sql text) = false).
  { rewrite clean_sql_eq. apply contains_strip, replace_fence_result. }
  split; [exact Hf|]. split; [apply clean_sql_trimmed|].
  rewrite (clean_sql_no_fence _ Hf). apply clean_sql_trimmed.
Qed.

(* ================================================================== *)
(** * Further properties of the schema text *)
(* ================================================================== *)

Section SchemaMore.

Local Open Scope list_scope.

Implicit Types (rows : list (string * string * string)).

Lemma contains_join (m sep x : string) (l : list string) :
  In x l -> contains m x = true -> contains m (join sep l) = true.
Proof.
  induction l as [|y l IH]; [contradiction|].
  intros [-> | Hin] Hm; cbn [join]; destruct l as [|z l].
  - exact Hm.
  - now apply contains_app_l.
  - contradiction.
  - apply contains_app_r, contains_app_r. now apply IH.
Qed.

Lemma block_of_row rows (r : string * string * string) :
  In r rows ->
  In (table_of r, columns_of (table_of r) rows) (schema_blocks rows)
  /\ In (column_entry r) (columns_of (table_of r) rows).
Proof.
  intros Hin. split.
  - unfold schema_blocks.
    apply (in_map (fun t => (t, columns_of t rows))).
    apply distinct_sound. now apply in_map.
  - unfold columns_of. apply in_map, filter_In.
    split; [exact Hin | apply String.eqb_refl].
Qed.

Lemma render_table_holds (m t : string) (c : list string) :
  contains m t = true
  \/ (exists x, In x c /\ contains m x = true) ->
  contains m (render_table (t, c)) = true.
Proof.
  unfold render_table. intros [H | (x & Hin & H)].
  - apply (contains_app_r m "Table: "). now apply contains_app_l.
  - apply (contains_app_r m "Table: "), contains_app_r, contains_app_r.
    apply (contains_app_r m "Columns: "). now apply (contains_join m ", " x).
Qed.

(** A name of the catalog shows in the schema text. *)
Lemma schema_text_holds_names (m : string) rows (r : string * string * string) :
  In r rows ->
  contains m (table_of r) = true \/ contains m (column_entry r) = true ->
  contains m (render_schema (build_schema rows)) = true.
Proof.
  intros Hin H. rewrite build_schema_blocks. unfold render_schema.
  destruct (block_of_row rows r Hin) as [Hb He].
  apply (contains_join m _ (render_table (table_of r, columns_of (table_of r) rows))).
  - now apply in_map.
  - apply render_table_holds. destruct H as [H | H]; [now left|].
    right. now exists (column_entry r).
Qed.

Lemma schema_append_perm (t e : string) (d : dict (list string)) :
  dict_mem t d = true ->
  Permutation (flat_map snd (schema_append t e d)) (e :: flat_map snd d).
Proof.
  induction d as [|[k cols] d IH]; [discriminate|].
  cbn [dict_mem schema_append]. destruct (String.eqb t k); cbn [orb].
  - intros _. cbn [flat_map snd]. rewrite <- app_assoc.
    apply Permutation_sym, Permutation_middle.
  - intros H. cbn [flat_map snd].
    apply Permutation_trans with (cols ++ e :: flat_map snd d).
    + apply Permutation_app_head, (IH H).
    + apply Permutation_sym, Permutation_middle.
Qed.

(** The loop body adds the row's entry and nothing else. *)
Lemma schema_add_row_perm (d : dict (list string))
    (r : string * string * string) :
  Permutation (flat_map snd (schema_add_row d r))
    (column_entry r :: flat_map snd d).
Proof.
  destruct r as [[table column] data_type]. unfold schema_add_row.
  change (column ++ " (" ++ data_type ++ ")")%string
    with (column_entry (table, column, data_type)).
  destruct (dict_mem table d) eqn:E; cbn [negb].
  - now apply schema_append_perm.
  - rewrite (dict_set_new _ _ _ E), (schema_append_last _ _ _ _ E).
    rewrite flat_map_app. cbn [flat_map snd app].
    apply Permutation_sym, Permutation_cons_append.
Qed.

Lemma build_schema_perm rows :
  Permutation (flat_map snd (build_schema rows)) (map column_entry rows).
Proof.
  induction rows as [|r rows IH] using rev_ind; [constructor|].
  unfold build_schema in *. rewrite fold_left_app. cbn [fold_left].
  rewrite map_app. cbn [map].
  apply Permutation_trans with (column_entry r :: map column_entry rows).
  - apply Permutation_trans
      with (column_entry r :: flat_map snd (fold_left schema_add_row rows [])).
    + apply schema_add_row_perm.
    + now constructor.
  - apply Permutation_cons_append.
Qed.

Lemma schema_blocks_tables rows :
  map fst (schema_blocks rows) = distinct (map table_of rows).
Proof.
  unfold schema_blocks. rewrite map_map. cbn [fst]. apply map_id.
Qed.

Lemma render_schema_nonempty rows (r : string * string * string) :
  exists rest, render_schema (schema_blocks (r :: rows)) = String "T" rest.
Proof.
  unfold render_schema, schema_blocks. cbn [map distinct join].
  destruct (map render_table _); unfold render_table; now eexists.
Qed.

End SchemaMore.

(** Property X8.  The dictionary built from the catalog rows has one key
    per table named by the rows, no key twice, and its column lists hold
    every row's entry exactly once: no column is lost or repeated, also
    when the rows of a table are not adjacent. *)
Theorem schema_keeps_every_column_once
    (rows : list (string * string * string)) :
  NoDup (map fst (build_schema rows))
  /\ (forall t, In t (map fst (build_schema rows)) <-> In t (map table_of rows))
  /\ Permutation (flat_map snd (build_schema rows)) (map column_entry rows).
Proof.
  rewrite build_schema_blocks, schema_blocks_tables.
  split; [apply distinct_NoDup|]. split.
  - intros t. apply distinct_sound.
  - rewrite <- build_schema_blocks. apply build_schema_perm.
Qed.

(** Property X9.  The marker test of the pipeline is a substring test on
    the whole schema text: when the introspection succeeds but a table
    name, a column name or a type name of the catalog holds the words
    "Schema unavailable", the schema text holds the marker and every
    question is refused with the unreachable-database text, without any
    call to the LLM or to the database. *)
Theorem marker_in_catalog_refuses_every_question
    (w : world) (rows : list (string * string * string))
    (r : string * string * string) :
  connect w = Connected ->
  catalog w = CatalogRows rows ->
  In r rows ->
  contains SCHEMA_MARKER (table_of r) = true
  \/ contains SCHEMA_MARKER (snd (fst r)) = true
  \/ contains SCHEMA_MARKER (snd r) = true ->
  exists text,
    fst (get_db_schema w) = Value text
    /\ contains SCHEMA_MARKER text = true
    /\ forall w' question,
         generate_db_answer w' question text
         = (Value (unavailable_reply text), []).
Proof.
  intros Hc Hr Hin H.
  rewrite get_db_schema_cases, Hc, Hr. eexists. split; [reflexivity|].
  assert (Hm : contains SCHEMA_MARKER (render_schema (build_schema rows))
               = true).
  { apply (schema_text_holds_names _ rows r Hin).
    destruct H as [H | [H | H]]; [now left | right | right];
      unfold column_entry.
    - now apply contains_app_l.
    - apply contains_app_r, (contains_app_r _ " ("). now apply contains_app_l. }
  split; [exact Hm|].
  intros w' question.
  now apply generate_db_answer_schema_unavailable.
Qed.

Lemma marker_in_catalog_refuses_every_question_witness :
  connect marked_world = Connected
  /\ catalog marked_world = CatalogRows [("Schema unavailable", "id", "integer")]
  /\ exists text,
       fst (get_db_schema marked_world) = Value text
       /\ contains SCHEMA_MARKER text = true
       /\ forall w' question,
            generate_db_answer w' question text
            = (Value (unavailable_reply text), []).
Proof.
  split; [reflexivity|]. split; [reflexivity|].
  apply (marker_in_catalog_refuses_every_question marked_world
           [("Schema unavailable", "id", "integer")]
           ("Schema unavailable", "id", "integer")
           eq_refl eq_refl (or_introl eq_refl) (or_introl eq_refl)).
Defined.

(** Property X10.  With a reachable database the schema text is empty
    exactly when the catalog returns no row; the empty text holds no
    marker, so the pipeline then asks the LLM with an empty schema. *)
Theorem schema_text_empty_iff_no_rows
    (w : world) (rows : list (string * string * string)) :
  connect w = Connected ->
  catalog w = CatalogRows rows ->
  (fst (get_db_schema w) = Value EmptyString <-> rows = [])
  /\ (rows = [] ->
      forall w' question,
        llm_prompts (snd (generate_db_answer w' question EmptyString))
        <> []).
Proof.
  intros Hc Hr. rewrite get_db_schema_cases, Hc, Hr. cbn [fst]. split.
  - split.
    + destruct rows as [|r rows]; [reflexivity|].
      rewrite build_schema_blocks.
      destruct (render_schema_nonempty rows r) as [rest ->]. discriminate.
    + now intros ->.
  - intros _ w' question.
    pipeline_cases w' question EmptyString; discriminate.
Qed.

Lemma schema_text_empty_iff_no_rows_witness :
  connect {| generate_content := generate_content count_world;
             connect := Connected;
             execute := execute count_world;
             catalog := CatalogRows [] |} = Connected
  /\ fst (get_db_schema
            {| generate_content := generate_content count_world;
               connect := Connected;
               execute := execute count_world;
               catalog := CatalogRows [] |}) = Value EmptyString.
Proof.
  split; [reflexivity|].
  apply (schema_text_empty_iff_no_rows
           {| generate_content := generate_content count_world;
              connect := Connected;
              execute := execute count_world;
              catalog := CatalogRows [] |} [] eq_refl eq_refl).
  reflexivity.
Defined.

(* ================================================================== *)
(** * Further properties of a session *)
(* ================================================================== *)

Section SessionMore.

Local Open Scope list_scope.

Lemma open_session_eq (w0 : world) (db_schema : string) :
  fst (get_db_schema w0) = Value db_schema ->
  open_session w0
  = {| messages := Some [GREETING]; schema_cache := Some db_schema |}.
Proof.
  intros H. unfold open_session, script_run, cached_get_db_schema.
  cbn [schema_cache new_session]. rewrite H. reflexivity.
Qed.

(** The first run of a browser session stores the greeting and leaves the
    memo filled with the schema text it used. *)
Lemma first_run_eq (w0 : world) (memo : option string) (db_schema : string) :
  cached_get_db_schema w0 {| messages := None; schema_cache := memo |}
  = Value db_schema ->
  fst (script_run w0 None {| messages := None; schema_cache := memo |})
  = {| messages := Some [GREETING]; schema_cache := Some db_schema |}.
Proof. intros H. unfold script_run. rewrite H. reflexivity. Qed.

Lemma run_turn_exchange (db_schema : string) (l : list ChatMessage)
    (t : turn) :
  submitted t ->
  run_turn {| messages := Some l; schema_cache := Some db_schema |} t
  = {| messages := Some (l ++ exchange db_schema t);
       schema_cache := Some db_schema |}.
Proof.
  destruct t as [prompt w]. unfold submitted. cbn [fst]. intros Hp.
  unfold exchange. cbn [fst snd].
  destruct (fst (generate_db_answer w prompt db_schema)) as [answer| |e] eqn:E.
  - now rewrite (run_turn_answered w prompt db_schema answer
                   {| messages := Some l; schema_cache := Some db_schema |}
                   eq_refl Hp E).
  - now rewrite (run_turn_silent w prompt db_schema
                   {| messages := Some l; schema_cache := Some db_schema |}
                   eq_refl Hp E).
  - now rewrite (run_turn_aborted w prompt db_schema e
                   {| messages := Some l; schema_cache := Some db_schema |}
                   eq_refl Hp E).
Qed.

(** Turn after turn the stored messages grow by the turn's exchange, and
    the cached schema text stays. *)
Lemma run_turns_exchanges (db_schema : string) (turns : list turn)
    (l : list ChatMessage) :
  Forall submitted turns ->
  run_turns {| messages := Some l; schema_cache := Some db_schema |} turns
  = {| messages := Some (l ++ flat_map (exchange db_schema) turns);
       schema_cache := Some db_schema |}.
Proof.
  revert l. induction turns as [|t turns IH]; intros l H.
  - cbn. now rewrite app_nil_r.
  - inversion H as [|? ? Ht Hrest]; subst.
    change (run_turns ?s (t :: turns)) with (run_turns (run_turn s t) turns).
    rewrite (run_turn_exchange _ _ _ Ht), (IH _ Hrest).
    cbn [flat_map]. now rewrite app_assoc.
Qed.

End SessionMore.

(** Property X11.  A browser session uses one schema text throughout:
    the text memoised by the server process when the session starts or,
    when the memo is still empty, the text fetched at the session's first
    run.  It stays the one used by every later turn whatever the database
    does then.  After any number of submitted questions the transcript is
    the greeting followed, turn by turn and in order, by the question and,
    exactly when the pipeline call of that turn returns, its reply. *)
Theorem transcript_of_a_session
    (w0 : world) (memo : option string) (db_schema : string)
    (turns : list turn) :
  cached_get_db_schema w0 {| messages := None; schema_cache := memo |}
  = Value db_schema ->
  Forall submitted turns ->
  let first_run :=
    fst (script_run w0 None {| messages := None; schema_cache := memo |}) in
  transcript (run_turns first_run turns)
  = GREETING :: flat_map (exchange db_schema) turns
  /\ schema_cache (run_turns first_run turns) = Some db_schema
  /\ match memo with
     | Some text => db_schema = text
     | None => fst (get_db_schema w0) = Value db_schema
     end.
Proof.
  intros H Ht first_run. unfold first_run.
  rewrite (first_run_eq w0 memo db_schema H), (run_turns_exchanges _ _ _ Ht).
  split; [reflexivity|]. split; [reflexivity|].
  destruct memo as [text|]; cbn in H; [now injection H as ->|exact H].
Qed.

Lemma transcript_of_a_session_witness :
  cached_get_db_schema offline_world
    {| messages := None; schema_cache := Some SAMPLE_SCHEMA |}
  = Value SAMPLE_SCHEMA
  /\ Forall submitted [(COUNT_QUESTION, count_world);
                       ("Add milk to the products.", insert_world);
                       (COUNT_QUESTION, mute_world);
                       (MISSING_QUESTION, failing_world)]
  /\ transcript
       (run_turns
          (fst (script_run offline_world None
                  {| messages := None; schema_cache := Some SAMPLE_SCHEMA |}))
          [(COUNT_QUESTION, count_world);
           ("Add milk to the products.", insert_world);
           (COUNT_QUESTION, mute_world);
           (MISSING_QUESTION, failing_world)])
     = [GREETING;
        user_message COUNT_QUESTION;
        assistant_message "There are 42 orders.";
        user_message "Add milk to the products.";
        user_message COUNT_QUESTION;
        {| role := "assistant"; content := None |};
        user_message MISSING_QUESTION;
        assistant_message "Error generating final answer: 503 UNAVAILABLE"]
  /\ fst (get_db_schema count_world) = Value SAMPLE_SCHEMA.
Proof.
  assert (Ht : Forall submitted [(COUNT_QUESTION, count_world);
                                 ("Add milk to the products.", insert_world);
                                 (COUNT_QUESTION, mute_world);
                                 (MISSING_QUESTION, failing_world)])
    by (repeat constructor).
  split; [reflexivity|]. split; [exact Ht|]. split.
  - exact (proj1 (transcript_of_a_session offline_world (Some SAMPLE_SCHEMA)
                    SAMPLE_SCHEMA _ eq_refl Ht)).
  - exact (proj2 (proj2 (transcript_of_a_session count_world None
                           SAMPLE_SCHEMA [] eq_refl (Forall_nil _)))).
Defined.

(** Property X12.  The schema cache keeps a failure too: when the
    database cannot be reached at the first run of a session, every later
    question is answered with the unreachable-database text, whatever the
    database and the LLM do by then. *)
Theorem unreachable_at_start_refuses_every_turn
    (w0 : world) (e : string) (turns : list turn) :
  connect w0 = ConnectError e
  \/ (connect w0 = Connected /\ catalog w0 = CatalogError e) ->
  Forall submitted turns ->
  transcript (run_turns (open_session w0) turns)
  = GREETING
    :: flat_map
         (fun t => [user_message (fst t);
                    assistant_message
                      (unavailable_reply (unavailable_schema e))])
         turns.
Proof.
  intros Hfail Ht.
  assert (H : fst (get_db_schema w0) = Value (unavailable_schema e)).
  { rewrite get_db_schema_cases. now destruct Hfail as [-> | [-> ->]]. }
  rewrite (open_session_eq w0 _ H), (run_turns_exchanges _ _ _ Ht).
  cbn [transcript messages app]. apply (f_equal (cons GREETING)).
  apply flat_map_ext. intros [prompt w].
  apply exchange_answered. cbn [fst snd].
  rewrite generate_db_answer_schema_unavailable; reflexivity.
Qed.

Lemma unreachable_at_start_refuses_every_turn_witness :
  connect offline_world = ConnectError "could not connect to server"
  /\ Forall submitted [(COUNT_QUESTION, count_world)]
  /\ transcript (run_turns (open_session offline_world)
                   [(COUNT_QUESTION, count_world)])
     = [GREETING; user_message COUNT_QUESTION;
        assistant_message
          (unavailable_reply
             (unavailable_schema "could not connect to server"))].
Proof.
  assert (Ht : Forall submitted [(COUNT_QUESTION, count_world)])
    by (repeat constructor).
  split; [reflexivity|]. split; [exact Ht|].
  exact (unreachable_at_start_refuses_every_turn offline_world
           "could not connect to server" _ (or_introl eq_refl) Ht).
Defined.

(* ================================================================== *)
(** * Properties of a run of the whole script *)
(* ================================================================== *)

Section WholeScript.

Local Open Scope list_scope.




Lemma replay_only_chat (x : widget) (l : list ChatMessage) :
  In x (replay l) -> exists name bodies, x = ChatBox name bodies.
Proof.
  unfold replay. rewrite in_map_iff. intros (m & <- & _). now do 2 eexists.
Qed.

Lemma live_after_app (a b : list event) (n : nat) :
  live_after n a = Some 0%nat -> live_after n (a ++ b) = live_after 0 b.
Proof.
  revert n. induction a as [|e a IH]; intros n; cbn [live_after app].
  - now intros [= ->].
  - destruct e as [| [|] | |]; try apply IH.
    destruct n; [discriminate | apply IH].
Qed.

Lemma opened_app (a b : list event) :
  opened (a ++ b) = (opened a + opened b)%nat.
Proof. unfold opened. now rewrite filter_app, length_app. Qed.

Lemma executed_app (a b : list event) :
  executed (a ++ b) = executed a ++ executed b.
Proof. apply flat_map_app. Qed.

Lemma get_db_schema_connections (w : world) :
  all_released (snd (get_db_schema w))
  /\ (opened (snd (get_db_schema w)) <= 1)%nat.
Proof.
  rewrite get_db_schema_cases.
  destruct (connect w); [destruct (catalog w)|];
    split; cbn; solve [reflexivity | lia].
Qed.

Lemma generate_db_answer_connections (w : world) (question db_schema : string) :
  all_released (snd (generate_db_answer w question db_schema))
  /\ (opened (snd (generate_db_answer w question db_schema)) <= 1)%nat.
Proof.
  pipeline_cases w question db_schema;
    split; cbn; solve [reflexivity | lia].
Qed.

Lemma generate_db_answer_spares_catalog
    (w : world) (question db_schema : string) :
  ~ In CATALOG_QUERY (executed (snd (generate_db_answer w question db_schema))).
Proof.
  pipeline_cases w question db_schema;
    cbn [snd executed flat_map app In]; intros H;
    try contradiction;
    destruct H as [H | []]; exact (clean_sql_not_catalog_query _ H).
Qed.

(** The session a run of the whole script leaves, and the way it ends,
    are those of the script body when the client is created. *)
Lemma app_script_body (w : world) (chat_input : option string) (s : session) :
  after (app_script ClientCreated w chat_input s)
  = fst (script_run w chat_input s)
  /\ match snd (script_run w chat_input s) with
     | Completed => ending (app_script ClientCreated w chat_input s) = Finished
     | Aborted e => ending (app_script ClientCreated w chat_input s) = Crashed e
     end.
Proof.
  unfold app_script, script_run, cached_get_db_schema,
    cached_get_db_schema_calls.
  destruct (schema_cache s) as [text|];
    [|destruct (get_db_schema w) as [[text| |e] calls]]; cbn [fst];
    try (split; reflexivity);
    (destruct chat_input as [prompt|]; [|split; reflexivity];
     destruct (truthy prompt); [|split; reflexivity];
     destruct (generate_db_answer w prompt text) as [[answer| |e] calls'];
     split; reflexivity).
Qed.

(** A run that reaches its last line ends its page with the side panel,
    after chat messages only. *)
Lemma finished_run_shape (w : world) (chat_input : option string)
    (s : session) :
  ending (app_script ClientCreated w chat_input s) = Finished ->
  exists db_schema pre,
    schema_cache (after (app_script ClientCreated w chat_input s))
    = Some db_schema
    /\ rendered (app_script ClientCreated w chat_input s)
       = pre ++ sidebar db_schema
    /\ forall x, In x pre -> exists name bodies, x = ChatBox name bodies.
Proof.
  unfold app_script, cached_get_db_schema_calls.
  destruct (match schema_cache s with
            | Some text => (Value text, [])
            | None => get_db_schema w
            end) as [[text| |e] calls]; [|discriminate|discriminate].
  destruct chat_input as [prompt|];
    [destruct (truthy prompt);
     [destruct (generate_db_answer w prompt text) as [[answer| |e] calls'];
      [| |discriminate]|]|];
    cbn [ending after rendered schema_cache]; intros _; exists text.
  - eexists. split; [reflexivity|]. split; [apply app_assoc|].
    intros x Hx. apply in_app_iff in Hx as [Hx | [<- | []]].
    + now apply replay_only_chat in Hx.
    + now do 2 eexists.
  - eexists. split; [reflexivity|]. split; [apply app_assoc|].
    intros x Hx. apply in_app_iff in Hx as [Hx | [<- | []]].
    + now apply replay_only_chat in Hx.
    + now do 2 eexists.
  - eexists. split; [reflexivity|]. split; [reflexivity|].
    intros x Hx. now apply replay_only_chat in Hx.
  - eexists. split; [reflexivity|]. split; [reflexivity|].
    intros x Hx. now apply replay_only_chat in Hx.
Qed.

End WholeScript.



(** Property X14.  In a run that reaches its last line the side panel
    reports the schema with the same substring test as the pipeline: it
    shows "Database Schema Retrieval Failed!" exactly when the cached
    schema text holds the marker, which is exactly when every question is
    refused without any call, and "Database Schema Loaded Successfully!"
    otherwise. *)
Theorem side_panel_agrees_with_the_guard
    (w : world) (chat_input : option string) (s : session) :
  ending (app_script ClientCreated w chat_input s) = Finished ->
  exists db_schema,
    schema_cache (after (app_script ClientCreated w chat_input s))
    = Some db_schema
    /\ (In (SidebarError "Database Schema Retrieval Failed!")
          (rendered (app_script ClientCreated w chat_input s))
        <-> contains SCHEMA_MARKER db_schema = true)
    /\ (In (SidebarSuccess "Database Schema Loaded Successfully!")
          (rendered (app_script ClientCreated w chat_input s))
        <-> contains SCHEMA_MARKER db_schema = false)
    /\ (contains SCHEMA_MARKER db_schema = true
        <-> forall w' question,
              generate_db_answer w' question db_schema
              = (Value (unavailable_reply db_schema), [])).
Proof.
  assert (Guard : forall db_schema,
            contains SCHEMA_MARKER db_schema = true
            <-> forall w' question,
                  generate_db_answer w' question db_schema
                  = (Value (unavailable_reply db_schema), [])).
  { intros db_schema. split.
    - intros H w' question.
      now apply generate_db_answer_schema_unavailable.
    - intros H. specialize (H w EmptyString). revert H.
      pipeline_cases w EmptyString db_schema; intros H;
        try reflexivity; discriminate (f_equal snd H). }
  assert (Panel : forall db_schema (pre : list widget),
            (forall x, In x pre -> exists name bodies, x = ChatBox name bodies) ->
            (In (SidebarError "Database Schema Retrieval Failed!")
               (pre ++ sidebar db_schema)%list
             <-> contains SCHEMA_MARKER db_schema = true)
            /\ (In (SidebarSuccess "Database Schema Loaded Successfully!")
                  (pre ++ sidebar db_schema)%list
                <-> contains SCHEMA_MARKER db_schema = false)).
  { intros db_schema pre Hpre. rewrite !in_app_iff. unfold sidebar.
    destruct (contains SCHEMA_MARKER db_schema); cbn [In]; split; split;
      intros H; try reflexivity; try discriminate;
      try (now right; left);
      destruct H as [H | H];
      try (apply Hpre in H; destruct H as (? & ? & H); discriminate H);
      try (destruct H as [H | [H | []]]; discriminate H). }
  intros Hend.
  destruct (finished_run_shape w chat_input s Hend)
    as (db_schema & pre & Hcache & -> & Hpre).
  exists db_schema. split; [exact Hcache|].
  destruct (Panel db_schema pre Hpre) as [P1 P2].
  split; [exact P1|]. split; [exact P2 | apply Guard].
Qed.

Lemma side_panel_agrees_with_the_guard_witness :
  ending (app_script ClientCreated count_world (Some COUNT_QUESTION)
            (open_session marked_world)) = Finished
  /\ exists db_schema,
       schema_cache
         (after (app_script ClientCreated count_world (Some COUNT_QUESTION)
                   (open_session marked_world)))
       = Some db_schema
       /\ (In (SidebarError "Database Schema Retrieval Failed!")
             (rendered (app_script ClientCreated count_world
                          (Some COUNT_QUESTION) (open_session marked_world)))
           <-> contains SCHEMA_MARKER db_schema = true)
       /\ (In (SidebarSuccess "Database Schema Loaded Successfully!")
             (rendered (app_script ClientCreated count_world
                          (Some COUNT_QUESTION) (open_session marked_world)))
           <-> contains SCHEMA_MARKER db_schema = false)
       /\ (contains SCHEMA_MARKER db_schema = true
           <-> forall w' question,
                 generate_db_answer w' question db_schema
                 = (Value (unavailable_reply db_schema), [])).
Proof.
  split; [reflexivity|].
  apply (side_panel_agrees_with_the_guard count_world (Some COUNT_QUESTION)
           (open_session marked_world)).
  reflexivity.
Defined.

(** Property X15.  Whatever the services do, a run of the script opens at
    most two database connections and leaves none open.  Once the schema
    text is cached a run opens at most one, never sends the catalog query
    again, and without a submitted question calls nothing at all. *)
Theorem script_run_database_use
    (w : world) (chat_input : option string) (s : session) :
  all_released (service_calls (app_script ClientCreated w chat_input s))
  /\ (opened (service_calls (app_script ClientCreated w chat_input s))
      <= 2)%nat
  /\ (forall text,
        schema_cache s = Some text ->
        (opened (service_calls (app_script ClientCreated w chat_input s))
         <= 1)%nat
        /\ ~ In CATALOG_QUERY
               (executed
                  (service_calls (app_script ClientCreated w chat_input s)))
        /\ (chat_input = None \/ chat_input = Some EmptyString ->
            service_calls (app_script ClientCreated w chat_input s) = [])).
Proof.
  assert (Run : exists db_schema calls,
            cached_get_db_schema_calls w s = (Value db_schema, calls)
            /\ all_released calls /\ (opened calls <= 1)%nat
            /\ (forall text, schema_cache s = Some text -> calls = [])
            /\ (service_calls (app_script ClientCreated w chat_input s)
                = calls
                \/ exists prompt,
                     chat_input = Some prompt /\ truthy prompt = true
                     /\ service_calls
                          (app_script ClientCreated w chat_input s)
                        = (calls
                           ++ snd (generate_db_answer w prompt db_schema))%list)).
  { unfold app_script, cached_get_db_schema_calls.
    destruct (schema_cache s) as [text|] eqn:Hs.
    - exists text, []. split; [reflexivity|]. split; [reflexivity|].
      split; [cbn; lia|]. split; [reflexivity|].
      destruct chat_input as [prompt|]; [|now left].
      destruct (truthy prompt) eqn:Hp; [|now left].
      right. exists prompt. split; [reflexivity|]. split; [exact Hp|].
      now destruct (generate_db_answer w prompt text)
        as [[answer| |e] calls'].
    - destruct (get_db_schema_returns w) as [text Hv].
      pose proof (get_db_schema_connections w) as [Hr Ho].
      destruct (get_db_schema w) as [o calls]. cbn [fst snd] in *. subst o.
      exists text, calls. split; [reflexivity|]. split; [exact Hr|].
      split; [exact Ho|]. split; [discriminate|].
      destruct chat_input as [prompt|]; [|now left].
      destruct (truthy prompt) eqn:Hp; [|now left].
      right. exists prompt. split; [reflexivity|]. split; [exact Hp|].
      now destruct (generate_db_answer w prompt text)
        as [[answer| |e] calls']. }
  destruct Run as (db_schema & calls & _ & Hr & Ho & Hcached & Hcalls).
  destruct Hcalls as [-> | (prompt & -> & Hp & ->)].
  - split; [exact Hr|]. split; [lia|].
    intros text Hs. rewrite (Hcached text Hs).
    split; [cbn; lia|]. split; [intros []|reflexivity].
  - destruct (generate_db_answer_connections w prompt db_schema) as [Tr To].
    split; [unfold all_released; now rewrite (live_after_app _ _ _ Hr)|].
    split; [rewrite opened_app; lia|].
    intros text Hs. rewrite (Hcached text Hs). cbn [app].
    split; [exact To|]. split.
    + apply generate_db_answer_spares_catalog.
    + intros [H | H]; [discriminate H|].
      injection H as ->. discriminate Hp.
Qed.

Lemma script_run_database_use_witness :
  schema_cache (open_session count_world) = Some SAMPLE_SCHEMA
  /\ (opened (service_calls
                (app_script ClientCreated count_world (Some COUNT_QUESTION)
                   (open_session count_world))) <= 1)%nat
  /\ service_calls
       (app_script ClientCreated count_world None (open_session count_world))
     = [].
Proof.
  split; [reflexivity|]. split.
  - exact (proj1 (proj2 (proj2 (script_run_database_use count_world
                                  (Some COUNT_QUESTION)
                                  (open_session count_world)))
                    SAMPLE_SCHEMA eq_refl)).
  - exact (proj2 (proj2 (proj2 (proj2 (script_run_database_use count_world
                                         None (open_session count_world)))
                           SAMPLE_SCHEMA eq_refl))
             (or_introl eq_refl)).
Defined.

(* ================================================================== *)
(** * The row dictionaries of the executor *)
(* ================================================================== *)

Section RowDicts.

Local Open Scope list_scope.

Context {V : Type}.

Implicit Types (d : dict V) (pairs : list (string * V)).

Lemma dict_of_pairs_snoc pairs (k : string) (v : V) :
  dict_of_pairs (pairs ++ [(k, v)]) = dict_set k v (dict_of_pairs pairs).
Proof. unfold dict_of_pairs. now rewrite fold_left_app. Qed.

Lemma dict_mem_keys (k : string) d :
  dict_mem k d = existsb (String.eqb k) (map fst d).
Proof.
  induction d as [|[k' v] d IH]; [reflexivity|].
  cbn [dict_mem map fst existsb]. now rewrite IH.
Qed.

Lemma dict_set_keys (k : string) (v : V) d :
  map fst (dict_set k v d)
  = if dict_mem k d then map fst d else map fst d ++ [k].
Proof.
  induction d as [|[k' v'] d IH]; [reflexivity|].
  cbn [dict_set dict_mem]. destruct (String.eqb k k'); [reflexivity|].
  cbn [orb map fst]. rewrite IH. now destruct (dict_mem k d).
Qed.

Lemma dict_get_set (k k' : string) (v : V) d :
  dict_get k' (dict_set k v d)
  = if String.eqb k' k then Some v else dict_get k' d.
Proof.
  induction d as [|[k0 v0] d IH]; cbn [dict_set dict_get].
  - reflexivity.
  - destruct (String.eqb_spec k k0) as [->|Hne]; cbn [dict_get].
    + now destruct (String.eqb k' k0).
    + rewrite IH. destruct (String.eqb_spec k' k0) as [->|_]; [|reflexivity].
      destruct (String.eqb_spec k0 k) as [->|_]; [congruence | reflexivity].
Qed.

Lemma last_value_snoc (k' k : string) (v : V) pairs :
  last_value k' (pairs ++ [(k, v)])
  = if String.eqb k' k then Some v else last_value k' pairs.
Proof. unfold last_value. now rewrite fold_left_app. Qed.

Lemma dict_of_pairs_keys pairs :
  map fst (dict_of_pairs pairs) = distinct (map fst pairs).
Proof.
  induction pairs as [|[k v] pairs IH] using rev_ind; [reflexivity|].
  rewrite dict_of_pairs_snoc, dict_set_keys, dict_mem_keys, IH.
  rewrite map_app. cbn [map fst].
  now rewrite distinct_snoc, existsb_distinct.
Qed.

Lemma dict_of_pairs_get (k : string) pairs :
  dict_get k (dict_of_pairs pairs) = last_value k pairs.
Proof.
  induction pairs as [|[k' v] pairs IH] using rev_ind; [reflexivity|].
  now rewrite dict_of_pairs_snoc, dict_get_set, last_value_snoc, IH.
Qed.

End RowDicts.

(** Property X16.  A row dictionary of the executor has one entry per
    distinct column name, in the order in which the names first occur,
    and under each name the value of the last column of that name: when a
    result has two columns of the same name, the value of the earlier one
    is not in the result text. *)
Theorem row_dict_keeps_last_of_a_name
    (column_names : list string) (row : list value) :
  NoDup (map fst (dict_of_pairs (combine column_names row)))
  /\ map fst (dict_of_pairs (combine column_names row))
     = distinct (map fst (combine column_names row))
  /\ (forall k,
        dict_get k (dict_of_pairs (combine column_names row))
        = last_value k (combine column_names row))
  /\ (List.length (dict_of_pairs (combine column_names row))
      <= List.length column_names)%nat.
Proof.
  assert (K := dict_of_pairs_keys (combine column_names row)).
  split; [rewrite K; apply distinct_NoDup|]. split; [exact K|].
  split; [intros k; apply dict_of_pairs_get|].
  rewrite <- (length_map fst), K.
  apply Nat.le_trans with (List.length (map fst (combine column_names row))).
  - apply NoDup_incl_length; [apply distinct_NoDup|].
    intros x Hx. now apply distinct_sound.
  - rewrite length_map, length_combine. lia.
Qed.

(** Two columns called [id]: the row text shows the second value only. *)
Example row_dict_of_a_join :
  str_of_list (result_rows ["id"; "name"; "id"]
                 [[VInt 3; VStr "milk"; VInt 7]])
  = "[{'id': 7, 'name': 'milk'}]".
Proof. reflexivity. Qed.

(** Property X17.  The placeholder "No data found." never reaches the
    LLM.  Whenever a call of the pipeline makes a synthesis call, it is its
    second and last LLM call, and the result text in its prompt is a text
    that starts with "Database Error: " or the text of the list of row
    dictionaries of a statement that ran with a result set; that text
    starts with a bracket, has one dictionary per row and is [[]] exactly
    when there is no row.  The placeholder is what the executor leaves in
    its result variable exactly when it raises, and then no synthesis call
    follows. *)
Theorem placeholder_never_reaches_synthesis
    (w : world) (question db_schema : string) :
  (forall p1 p2 rest,
     llm_prompts (snd (generate_db_answer w question db_schema))
     = p1 :: p2 :: rest ->
     rest = []
     /\ exists text result_text,
          generate_content w 0 (sql_generation_prompt db_schema question)
          = LlmText text
          /\ p1 = sql_generation_prompt db_schema question
          /\ p2 = final_answer_prompt question (clean_sql text) result_text
          /\ result_text <> "No data found."
          /\ (startswith "Database Error: " result_text = true
              \/ exists cols rows,
                   connect w = Connected
                   /\ execute w (clean_sql text) = Executed (Some cols) rows
                   /\ result_text = str_of_list (result_rows cols rows)
                   /\ startswith "[" result_text = true
                   /\ List.length (result_rows cols rows) = List.length rows
                   /\ (result_text = "[]" <-> rows = [])))
  /\ (forall sql_query st,
        query_result (snd (execute_query w sql_query st)) = "No data found."
        <-> exists e, fst (execute_query w sql_query st) = Raised e)
  /\ (forall e,
        fst (generate_db_answer w question db_schema) = Throws e ->
        (List.length
           (llm_prompts (snd (generate_db_answer w question db_schema)))
         <= 1)%nat).
Proof.
  split; [|split].
  - intros p1 p2 rest.
    pipeline_cases w question db_schema; cbn [snd llm_prompts flat_map app];
      intros H; try discriminate H;
      injection H as <- <- <-; (split; [reflexivity|]);
      exists text; eexists;
      (split; [reflexivity|]); (split; [reflexivity|]);
      (split; [reflexivity|]); (split; [discriminate|]);
      try (left; reflexivity).
    right. exists cols, rows.
    split; [reflexivity|]. split; [assumption|]. split; [reflexivity|].
    split; [reflexivity|]. split; [apply length_map|].
    split.
    + intros H. now apply str_of_list_empty, result_rows_empty in H.
    + now intros ->.
  - intros sql_query st. rewrite execute_query_cases.
    destruct (connect w);
      [destruct (execute w sql_query) as [e|[cols|] rows|cols e];
       [| | |destruct (isinstance_psycopg2_Error e)]|];
      cbn [fst snd query_result]; split;
      try (intros _; now eexists);
      try discriminate;
      try (intros (x & H); discriminate H).
  - intros e.
    pipeline_cases w question db_schema; cbn [fst snd llm_prompts flat_map app];
      intros H; try discriminate H;
      try (destruct (generate_content w 1 _); discriminate H);
      cbn [List.length]; lia.
Qed.

Lemma placeholder_never_reaches_synthesis_witness :
  llm_prompts (snd (generate_db_answer count_world COUNT_QUESTION
                      SAMPLE_SCHEMA))
  = [sql_generation_prompt SAMPLE_SCHEMA COUNT_QUESTION;
     final_answer_prompt COUNT_QUESTION COUNT_SQL "[{'count': 42}]"]
  /\ (exists e,
        fst (execute_query insert_world INSERT_SQL initial_state) = Raised e)
  /\ (exists text result_text,
        generate_content count_world 0
          (sql_generation_prompt SAMPLE_SCHEMA COUNT_QUESTION)
        = LlmText text
        /\ sql_generation_prompt SAMPLE_SCHEMA COUNT_QUESTION
           = sql_generation_prompt SAMPLE_SCHEMA COUNT_QUESTION
        /\ final_answer_prompt COUNT_QUESTION COUNT_SQL "[{'count': 42}]"
           = final_answer_prompt COUNT_QUESTION (clean_sql text) result_text
        /\ result_text <> "No data found."
        /\ (startswith "Database Error: " result_text = true
            \/ exists cols rows,
                 connect count_world = Connected
                 /\ execute count_world (clean_sql text)
                    = Executed (Some cols) rows
                 /\ result_text = str_of_list (result_rows cols rows)
                 /\ startswith "[" result_text = true
                 /\ List.length (result_rows cols rows) = List.length rows
                 /\ (result_text = "[]" <-> rows = []))).
Proof.
  split; [reflexivity|]. split.
  - apply (proj1 (proj2 (placeholder_never_reaches_synthesis insert_world
                           "Add milk to the products." SAMPLE_SCHEMA))
             INSERT_SQL initial_state).
    reflexivity.
  - exact (proj2 (proj1 (placeholder_never_reaches_synthesis count_world
                           COUNT_QUESTION SAMPLE_SCHEMA)
                    _ _ [] eq_refl)).
Defined.
